(** * Package Version Health Monitor Agent: the health-evaluation pipeline

    A shallow embedding of [src/main.py]: the dependency parser of the two
    batch endpoints, the registry and vulnerability clients, the health
    evaluator and the aggregator, followed by the properties of the
    specification that were checked against them.

    Conventions.
    - A Python [str] is the list of its Unicode code points.
    - A Python [int] is a [Z].
    - A value read from a decoded JSON body, or stored in one of the
      dictionaries the helper functions return, is a [value].
    - A raised exception is the [Raise] result of the monads [result] and [M];
      [M] also threads the log of the HTTP requests issued so far.
    - [print] in the [except] handlers only writes a diagnostic line and is
      left out.
    - Constructing a [PackageHealthResponse] runs pydantic's validation of
      the declared field types: the constructor raises [ValidationError] or
      returns the record of the validated, converted values. *)

From Stdlib Require Import ZArith NArith List String Ascii Bool Lia QArith.
From Stdlib Require Import DecimalString DecimalPos DecimalZ.
Import ListNotations.

Open Scope Z_scope.
Set Warnings "-register-all".

(** ** Python strings *)

Module Py.

Definition char := N.
Definition str := list char.

(** An ASCII literal of the source, as code points. *)
Definition lit (s : string) : str := map N_of_ascii (list_ascii_of_string s).

(** [a == b] *)
Fixpoint str_eqb (a b : str) : bool :=
  match a, b with
  | [], [] => true
  | x :: a', y :: b' => (x =? y)%N && str_eqb a' b'
  | _, _ => false
  end.

(** [str.isspace] for one code point (CPython's [_PyUnicode_IsWhitespace]). *)
Definition isspace (c : char) : bool :=
  ((9 <=? c) && (c <=? 13) || (28 <=? c) && (c <=? 32)
   || (c =? 133) || (c =? 160) || (c =? 5760)
   || (8192 <=? c) && (c <=? 8202)
   || (c =? 8232) || (c =? 8233) || (c =? 8239) || (c =? 8287)
   || (c =? 12288))%N.

(** Drop the leading characters satisfying [p]. *)
Fixpoint lstrip_by (p : char -> bool) (s : str) : str :=
  match s with
  | [] => []
  | c :: t => if p c then lstrip_by p t else s
  end.

Definition rstrip_by (p : char -> bool) (s : str) : str :=
  rev (lstrip_by p (rev s)).

(** [s.strip()] *)
Definition strip (s : str) : str := rstrip_by isspace (lstrip_by isspace s).

Definition mem (c : char) (chars : str) : bool := existsb (N.eqb c) chars.

(** [s.lstrip(chars)] *)
Definition lstrip (chars s : str) : str := lstrip_by (fun c => mem c chars) s.

(** [s.startswith(prefix)] *)
Fixpoint startswith (prefix s : str) : bool :=
  match prefix, s with
  | [], _ => true
  | _ :: _, [] => false
  | a :: p, b :: t => (a =? b)%N && startswith p t
  end.

(** [s.find(sub)], [None] for -1. *)
Fixpoint find (sub s : str) : option nat :=
  if startswith sub s then Some 0%nat
  else match s with
       | [] => None
       | _ :: t => option_map S (find sub t)
       end.

(** [sub in s] *)
Definition contains (sub s : str) : bool :=
  match find sub s with Some _ => true | None => false end.

(** [str(n)] for an [int]. *)
Definition str_of_int (n : Z) : str := lit (NilZero.string_of_int (Z.to_int n)).

End Py.

Import Py.

(** ** Health Evaluator *)

(** [calculate_health_score], lines 153-164: the running [score] is
    rebound by each [if]. *)
Definition calculate_health_score
    (is_outdated : bool) (vuln_count : Z) (is_deprecated : bool) : Z :=
  let score := 100 in
  let score := if is_outdated then score - 20 else score in
  let score := if 0 <? vuln_count then score - Z.min (vuln_count * 15) 50 else score in
  let score := if is_deprecated then score - 30 else score in
  Z.max score 0.

(** The four messages of [get_recommendation]; the leading symbols are
    U+26A0 U+FE0F, U+1F6A8, U+26A1 and U+2705. *)
Definition msg_deprecated : str :=
  [9888; 65039]%N ++ lit " CRITICAL: Package is deprecated. Find an alternative immediately.".
Definition msg_vulnerable (vuln_count : Z) : str :=
  [128680]%N ++ lit " URGENT: " ++ str_of_int vuln_count
    ++ lit " vulnerabilities found. Update immediately.".
Definition msg_outdated : str :=
  [9889]%N ++ lit " Update recommended to latest version.".
Definition msg_healthy : str :=
  [9989]%N ++ lit " Package is healthy and up-to-date.".

(** [get_recommendation], lines 166-175. *)
Definition get_recommendation
    (health_score : Z) (is_outdated : bool) (vuln_count : Z) (is_deprecated : bool) : str :=
  if is_deprecated then msg_deprecated
  else if 0 <? vuln_count then msg_vulnerable vuln_count
  else if is_outdated then msg_outdated
  else msg_healthy.

(** ** Values, exceptions and effects *)

(** The Python values the pipeline handles: what [response.json()] decodes
    and what the dictionaries built by the helpers contain. A [dict] is the
    list of its items in insertion order; a lookup takes the first item with
    the key. *)
Inductive value : Type :=
| VNone
| VBool (b : bool)
| VInt (n : Z)
| VFloat (q : Q)
| VStr (s : str)
| VList (l : list value)
| VDict (d : list (str * value)).

(** Truth value of an object, as tested by [if] and [and]. *)
Definition truthy (v : value) : bool :=
  match v with
  | VNone => false
  | VBool b => b
  | VInt n => negb (n =? 0)
  | VFloat q => negb (Qeq_bool q 0)
  | VStr s => match s with [] => false | _ => true end
  | VList l => match l with [] => false | _ => true end
  | VDict d => match d with [] => false | _ => true end
  end.

(** The exceptions that can arise; every one is a subclass of [Exception]. *)
Inductive exn : Type :=
| HTTPException (status_code : Z) (detail : str)
| KeyError
| IndexError
| TypeError
| AttributeError
| ValueError
| ZeroDivisionError
| RequestException
| JSONDecodeError
| ValidationError.

Inductive result (A : Type) : Type :=
| Ok (a : A)
| Raise (e : exn).
Arguments Ok {A} a.
Arguments Raise {A} e.

Inductive request : Type :=
| GET (url : str)
| POST (url : str) (json : value).

(** What a call of [requests.get] / [requests.post] does: it raises
    (connection failure, timeout, ...) or returns a response, whose
    [.json()] raises when [body] is [None]. *)
Record Response : Type := mkResponse { status_code : Z; body : option value }.

Inductive http_outcome : Type :=
| Fails
| Returns (r : Response).

(** Computations that may raise and that issue HTTP requests: the state is
    the log of the requests issued so far. *)
Definition M (A : Type) : Type := list request -> result A * list request.

Class Monad (T : Type -> Type) : Type :=
  { ret : forall {A}, A -> T A;
    bind : forall {A B}, T A -> (A -> T B) -> T B }.

#[global] Instance Monad_result : Monad result :=
  { ret := fun A a => Ok a;
    bind := fun A B c k => match c with Ok a => k a | Raise e => Raise e end }.

#[global] Instance Monad_M : Monad M :=
  { ret := fun A a log => (Ok a, log);
    bind := fun A B c k log =>
      match c log with
      | (Ok a, log') => k a log'
      | (Raise e, log') => (Raise e, log')
      end }.

Notation "x <- c ;; k" := (bind c (fun x => k))
  (at level 61, c at next level, right associativity).

Definition raise {A} (e : exn) : M A := fun log => (Raise e, log).
Definition lift {A} (c : result A) : M A := fun log => (c, log).

(** [try: c  except Exception as e: h e] *)
Definition try_except {A} (c : M A) (h : exn -> M A) : M A :=
  fun log =>
    match c log with
    | (Ok a, log') => (Ok a, log')
    | (Raise e, log') => h e log'
    end.

(** *** Operations on values *)

Fixpoint dict_get {V} (k : str) (d : list (str * V)) : option V :=
  match d with
  | [] => None
  | (k', v) :: d' => if str_eqb k k' then Some v else dict_get k d'
  end.

(** [v[k]] for a string key. *)
Definition getitem (v : value) (k : str) : result value :=
  match v with
  | VDict d => match dict_get k d with Some x => Ok x | None => Raise KeyError end
  | _ => Raise TypeError
  end.

(** [v[0]] *)
Definition getitem0 (v : value) : result value :=
  match v with
  | VList l => match l with x :: _ => Ok x | [] => Raise IndexError end
  | VStr s => match s with c :: _ => Ok (VStr [c]) | [] => Raise IndexError end
  | VDict _ => Raise KeyError
  | _ => Raise TypeError
  end.

(** [v.get(k, default)] *)
Definition get (v : value) (k : str) (default : value) : result value :=
  match v with
  | VDict d => match dict_get k d with Some x => Ok x | None => Ok default end
  | _ => Raise AttributeError
  end.

(** [list(v.keys())] *)
Definition keys (v : value) : result (list value) :=
  match v with
  | VDict d => Ok (map (fun kv => VStr (fst kv)) d)
  | _ => Raise AttributeError
  end.

(** The items a [for] loop over [v] visits. *)
Definition iter (v : value) : result (list value) :=
  match v with
  | VList l => Ok l
  | VDict d => Ok (map (fun kv => VStr (fst kv)) d)
  | VStr s => Ok (map (fun c => VStr [c]) s)
  | _ => Raise TypeError
  end.

(** [current_version != v] for an [Optional[str]]. *)
Definition opt_ne (current_version : option str) (v : value) : bool :=
  match current_version, v with
  | Some cv, VStr s => negb (str_eqb cv s)
  | None, VNone => false
  | _, _ => true
  end.

(** Truth value of an [Optional[str]]. *)
Definition truthy_opt (o : option str) : bool :=
  match o with Some (_ :: _) => true | _ => false end.

(** [a // b] *)
Definition floordiv (a b : Z) : result Z :=
  if b =? 0 then Raise ZeroDivisionError else Ok (a / b).

(** [s.split(sep, 1)] *)
Definition split1 (sep s : str) : result (list str) :=
  match sep with
  | [] => Raise ValueError
  | _ => match find sep s with
         | Some i => Ok [firstn i s; skipn (i + List.length sep) s]
         | None => Ok [s]
         end
  end.

(** [a, b = parts] *)
Definition unpack2 (parts : list str) : result (str * str) :=
  match parts with
  | [a; b] => Ok (a, b)
  | _ => Raise ValueError
  end.

(** ** Models (lines 17-48)

    A [PackageHealthResponse] holds validated values: [latest_version] is
    [VNone] or a [VStr], [is_outdated] and [is_deprecated] are [VBool]s. *)

Record PackageDependency : Type := mkPackageDependency
  { pkg_name : str; pkg_version : option str }.

Record PythonDependenciesRequest : Type := mkPythonDependenciesRequest
  { req_packages : list str }.

Record NpmDependenciesRequest : Type := mkNpmDependenciesRequest
  { dependencies : option (list (str * str));
    devDependencies : option (list (str * str)) }.

Record PackageHealthResponse : Type := mkPackageHealthResponse
  { name : str;
    current_version : option str;
    latest_version : value;
    is_outdated : value;
    has_vulnerabilities : bool;
    vulnerability_count : Z;
    is_deprecated : value;
    health_score : Z;
    recommendation : str;
    vulnerabilities : list value }.

Record OverallHealthResponse : Type := mkOverallHealthResponse
  { total_packages : Z;
    outdated_count : Z;
    vulnerable_count : Z;
    deprecated_count : Z;
    overall_health_score : Z;
    packages : list PackageHealthResponse }.

(** *** Validation of a response model

    [PackageHealthResponse(...)] validates its keyword arguments against the
    annotations of lines 30-40, as pydantic 2 does by default (lax mode). The
    arguments for [name], [current_version], [has_vulnerabilities],
    [vulnerability_count], [health_score], [recommendation] and
    [vulnerabilities] always have the declared type; [latest_version],
    [is_outdated] and [is_deprecated] come from the dictionaries of the
    registry clients and are validated below. The constructors of
    [PackageDependency] and [OverallHealthResponse] only receive values of
    the declared types: they are the constructors of the records. *)

(** ASCII lower case of one code point. *)
Definition ascii_lower (c : char) : char :=
  if ((65 <=? c) && (c <=? 90))%N then (c + 32)%N else c.

(** A field annotated [Optional[str]]: [None] and strings are accepted. *)
Definition validate_optional_str (v : value) : result value :=
  match v with
  | VNone => Ok VNone
  | VStr s => Ok (VStr s)
  | _ => Raise ValidationError
  end.

(** The strings a [bool] field accepts, compared without regard to ASCII
    case. *)
Definition false_strings : list str :=
  [lit "0"; lit "f"; lit "n"; lit "no"; lit "off"; lit "false"].
Definition true_strings : list str :=
  [lit "1"; lit "t"; lit "y"; lit "on"; lit "yes"; lit "true"].

(** A field annotated [bool]: booleans are accepted, and so are the numbers
    0 and 1 and the strings above, which are converted. *)
Definition validate_bool (v : value) : result value :=
  match v with
  | VBool b => Ok (VBool b)
  | VInt n =>
      if n =? 0 then Ok (VBool false)
      else if n =? 1 then Ok (VBool true)
      else Raise ValidationError
  | VFloat q =>
      if Qeq_bool q 0 then Ok (VBool false)
      else if Qeq_bool q 1 then Ok (VBool true)
      else Raise ValidationError
  | VStr s =>
      let s := map ascii_lower s in
      if existsb (str_eqb s) false_strings then Ok (VBool false)
      else if existsb (str_eqb s) true_strings then Ok (VBool true)
      else Raise ValidationError
  | _ => Raise ValidationError
  end.

(** [PackageHealthResponse(name=..., ..., vulnerabilities=...)] *)
Definition new_PackageHealthResponse
    (name : str) (current_version : option str) (latest_version is_outdated : value)
    (has_vulnerabilities : bool) (vulnerability_count : Z) (is_deprecated : value)
    (health_score : Z) (recommendation : str) (vulnerabilities : list value)
    : result PackageHealthResponse :=
  latest_version <- validate_optional_str latest_version ;;
  is_outdated <- validate_bool is_outdated ;;
  is_deprecated <- validate_bool is_deprecated ;;
  ret (mkPackageHealthResponse name current_version latest_version is_outdated
         has_vulnerabilities vulnerability_count is_deprecated health_score
         recommendation vulnerabilities).

(** ** Dependency Parser *)

Definition operators : list str :=
  [lit "=="; lit ">="; lit "<="; lit ">"; lit "<"; lit "~="].

(** Lines 219-226: the [for op in ...] loop with its [break] and [else];
    [packages] is returned with the new dependency appended. *)
Fixpoint scan_operators (ops : list str) (pkg_str : str)
    (packages : list PackageDependency) : result (list PackageDependency) :=
  match ops with
  | [] => ret (packages ++ [mkPackageDependency pkg_str None])
  | op :: ops' =>
      if contains op pkg_str then
        parts <- split1 op pkg_str ;;
        nv <- unpack2 parts ;;
        ret (packages ++
             [mkPackageDependency (strip (fst nv)) (Some (strip (snd nv)))])
      else scan_operators ops' pkg_str packages
  end.

(** Lines 212-226: the loop over [request.packages]. *)
Fixpoint parse_packages (entries : list str)
    (packages : list PackageDependency) : result (list PackageDependency) :=
  match entries with
  | [] => ret packages
  | pkg_str :: rest =>
      let pkg_str := strip pkg_str in
      if (match pkg_str with [] => true | _ => false end)
         || startswith (lit "#") pkg_str
      then parse_packages rest packages
      else
        packages <- scan_operators operators pkg_str packages ;;
        parse_packages rest packages
  end.

(** [d[k] = v] on an insertion-ordered dict. *)
Fixpoint dict_set {V} (k : str) (v : V) (d : list (str * V)) : list (str * V) :=
  match d with
  | [] => [(k, v)]
  | (k', v') :: d' =>
      if str_eqb k k' then (k', v) :: d' else (k', v') :: dict_set k v d'
  end.

(** [d.update(items)] *)
Definition dict_update {V} (d items : list (str * V)) : list (str * V) :=
  fold_left (fun acc kv => dict_set (fst kv) (snd kv) acc) items d.

(** [**m] inside a dict display: [None] is not a mapping. *)
Definition unpack_mapping {V} (m : option (list (str * V))) : result (list (str * V)) :=
  match m with
  | Some d => Ok d
  | None => Raise TypeError
  end.

(** [m or {}] *)
Definition or_empty {V} (m : option (list (str * V))) : list (str * V) :=
  match m with
  | Some (kv :: d) => kv :: d
  | _ => []
  end.

(** Line 301: [{**request.dependencies, **(request.devDependencies or {})}]. *)
Definition all_deps (request : NpmDependenciesRequest) : result (list (str * str)) :=
  deps <- unpack_mapping (dependencies request) ;;
  dev <- unpack_mapping (Some (or_empty (devDependencies request))) ;;
  ret (dict_update (dict_update [] deps) dev).

(** Line 305: [version.lstrip('^~>=<')]. *)
Definition clean_version (version : str) : str := lstrip (lit "^~>=<") version.

(** Lines 303-306: the loop over [all_deps.items()]. *)
Definition npm_packages (items : list (str * str)) : list PackageDependency :=
  map (fun nv => mkPackageDependency (fst nv) (Some (clean_version (snd nv)))) items.

(** ** Aggregator arithmetic (lines 271 and 351) *)

Definition len {A} (l : list A) : Z := Z.of_nat (List.length l).

(** [sum(xs)] *)
Definition sum (xs : list Z) : Z := fold_left Z.add xs 0.

Definition overall_score (results : list PackageHealthResponse) : result Z :=
  match results with
  | _ :: _ => floordiv (sum (map health_score results)) (len results)
  | [] => Ok 0
  end.

(** [for x in l: st = body st x] *)
Fixpoint for_each {A S} (body : S -> A -> M S) (l : list A) (st : S) : M S :=
  match l with
  | [] => ret st
  | a :: l' => st' <- body st a ;; for_each body l' st'
  end.

(** One advisory to its record (lines 142-147). *)
Definition advisory_record (vuln : value) : result value :=
  id <- get vuln (lit "id") VNone ;;
  summary <- get vuln (lit "summary") (VStr (lit "No summary available")) ;;
  cond <- get vuln (lit "severity") VNone ;;
  severity <-
    (if truthy cond then
       sev <- get vuln (lit "severity") (VList [VDict []]) ;;
       first <- getitem0 sev ;;
       get first (lit "type") (VStr (lit "UNKNOWN"))
     else ret (VStr (lit "UNKNOWN"))) ;;
  published <- get vuln (lit "published") (VStr []) ;;
  ret (VDict [(lit "id", id); (lit "summary", summary);
              (lit "severity", severity); (lit "published", published)]).

(** The loop of lines 141-147. The list [vulnerabilities] is a local of the
    enclosing function, so what was appended before an exception stays. *)
Fixpoint append_advisories (vulns vulnerabilities : list value)
    : list value * result unit :=
  match vulns with
  | [] => (vulnerabilities, Ok tt)
  | vuln :: rest =>
      match advisory_record vuln with
      | Ok r => append_advisories rest (vulnerabilities ++ [r])
      | Raise e => (vulnerabilities, Raise e)
      end
  end.

Definition neutral_pypi : value :=
  VDict [(lit "latest_version", VNone); (lit "is_outdated", VBool false);
         (lit "releases", VList [])].

Definition neutral_npm : value :=
  VDict [(lit "latest_version", VNone); (lit "is_outdated", VBool false);
         (lit "deprecated", VBool false)].

Definition no_packages : exn :=
  HTTPException 400 (lit "No valid packages found in the provided content").

Definition bad_ecosystem : exn :=
  HTTPException 400 (lit "Ecosystem must be 'python' or 'npm'").

(** *** What the clients do with a decoded body *)

Definition pypi_url (package_name : str) : str :=
  lit "https://pypi.org/pypi/" ++ package_name ++ lit "/json".

Definition npm_url (package_name : str) : str :=
  lit "https://registry.npmjs.org/" ++ package_name.

Definition osv_url : str := lit "https://api.osv.dev/v1/query".

(** Lines 92-98: from [data] to the returned dict. *)
Definition pypi_result (current_version : option str) (data : value) : result value :=
  info <- getitem data (lit "info") ;;
  latest_version <- getitem info (lit "version") ;;
  let is_outdated :=
    if truthy_opt current_version
    then opt_ne current_version latest_version else false in
  releases <- get data (lit "releases") (VDict []) ;;
  ks <- keys releases ;;
  ret (VDict [(lit "latest_version", latest_version);
              (lit "is_outdated", VBool is_outdated);
              (lit "releases", VList ks)]).

(** Lines 110-116: from [data] to the returned dict. *)
Definition npm_result (current_version : option str) (data : value) : result value :=
  tags <- get data (lit "dist-tags") (VDict []) ;;
  latest_version <- get tags (lit "latest") VNone ;;
  let is_outdated :=
    if truthy_opt current_version && truthy latest_version
    then opt_ne current_version latest_version else false in
  deprecated <- get data (lit "deprecated") (VBool false) ;;
  ret (VDict [(lit "latest_version", latest_version);
              (lit "is_outdated", VBool is_outdated);
              (lit "deprecated", deprecated)]).

(** Lines 129-134: the query sent to the vulnerability database. *)
Definition osv_payload (package_name ecosystem : str) : value :=
  VDict [(lit "package",
          VDict [(lit "name", VStr package_name);
                 (lit "ecosystem",
                  VStr (if str_eqb ecosystem (lit "python")
                        then lit "PyPI" else lit "npm"))])].

(** Lines 139 and 141: the advisories the loop will visit. *)
Definition osv_vulns (data : value) : result (list value) :=
  vulns <- get data (lit "vulns") (VList []) ;;
  iter vulns.

(** ** Clients and endpoints, over an arbitrary network *)

Section Pipeline.

(** The outside world: what a request yields, given the requests issued
    before it. *)
Variable net : list request -> request -> http_outcome.

Definition send (req : request) : M Response :=
  fun log =>
    match net log req with
    | Fails => (Raise RequestException, log ++ [req])
    | Returns r => (Ok r, log ++ [req])
    end.

Definition requests_get (url : str) : M Response := send (GET url).
Definition requests_post (url : str) (json : value) : M Response := send (POST url json).

(** [response.json()] *)
Definition response_json (r : Response) : result value :=
  match body r with
  | Some v => Ok v
  | None => Raise JSONDecodeError
  end.

(** The [try] block of [check_pypi_package] (lines 89-98): [Some d] when it
    executes [return d], [None] when control leaves the block. *)
Definition pypi_try (package_name : str) (current_version : option str)
    : M (option value) :=
  response <- requests_get (pypi_url package_name) ;;
  if status_code response =? 200 then
    lift (data <- response_json response ;;
          d <- pypi_result current_version data ;;
          ret (Some d))
  else ret None.

(** [check_pypi_package], lines 86-102. *)
Definition check_pypi_package (package_name : str) (current_version : option str)
    : M value :=
  r <- try_except (pypi_try package_name current_version) (fun _ => ret None) ;;
  match r with
  | Some d => ret d
  | None => ret neutral_pypi
  end.

(** The [try] block of [check_npm_package] (lines 107-116). *)
Definition npm_try (package_name : str) (current_version : option str)
    : M (option value) :=
  response <- requests_get (npm_url package_name) ;;
  if status_code response =? 200 then
    lift (data <- response_json response ;;
          d <- npm_result current_version data ;;
          ret (Some d))
  else ret None.

(** [check_npm_package], lines 104-120. *)
Definition check_npm_package (package_name : str) (current_version : option str)
    : M value :=
  r <- try_except (npm_try package_name current_version) (fun _ => ret None) ;;
  match r with
  | Some d => ret d
  | None => ret neutral_npm
  end.

(** The [try] block of [check_vulnerabilities_osv] (lines 127-147), run on
    the local list [vulnerabilities]: the list when the block ends, how the
    block ended, and the request log. *)
Definition osv_try (package_name ecosystem : str) (vulnerabilities : list value)
    (log : list request) : list value * result unit * list request :=
  let url := osv_url in
  let payload := osv_payload package_name ecosystem in
  match requests_post url payload log with
  | (Raise e, log) => (vulnerabilities, Raise e, log)
  | (Ok response, log) =>
      if status_code response =? 200 then
        match (data <- response_json response ;; osv_vulns data) with
        | Raise e => (vulnerabilities, Raise e, log)
        | Ok vulns =>
            let (vulnerabilities, r) := append_advisories vulns vulnerabilities in
            (vulnerabilities, r, log)
        end
      else (vulnerabilities, Ok tt, log)
  end.

(** [check_vulnerabilities_osv], lines 122-151: whatever the block did,
    the function returns [vulnerabilities]. *)
Definition check_vulnerabilities_osv (package_name ecosystem : str)
    : M (list value) :=
  fun log =>
    let vulnerabilities := [] in
    let '(vulnerabilities, _, log) :=
      osv_try package_name ecosystem vulnerabilities log in
    (Ok vulnerabilities, log).

(** The per-package state of the two batch loops: [results] and the three
    counters. *)
Definition loop_state : Type := list PackageHealthResponse * Z * Z * Z.

(** Body of the loop of lines 236-268; the response model is constructed,
    and validated, after the counters were updated. *)
Definition python_body (st : loop_state) (pkg : PackageDependency) : M loop_state :=
  let '(results, outdated_count, vulnerable_count, deprecated_count) := st in
  pypi_info <- check_pypi_package (pkg_name pkg) (pkg_version pkg) ;;
  vulnerabilities <- check_vulnerabilities_osv (pkg_name pkg) (lit "python") ;;
  is_outdated <- lift (getitem pypi_info (lit "is_outdated")) ;;
  let has_vulns := 0 <? len vulnerabilities in
  let is_deprecated := VBool false in
  let health_score :=
    calculate_health_score (truthy is_outdated) (len vulnerabilities)
                           (truthy is_deprecated) in
  let recommendation :=
    get_recommendation health_score (truthy is_outdated) (len vulnerabilities)
                       (truthy is_deprecated) in
  let outdated_count :=
    if truthy is_outdated then outdated_count + 1 else outdated_count in
  let vulnerable_count :=
    if has_vulns then vulnerable_count + 1 else vulnerable_count in
  let deprecated_count :=
    if truthy is_deprecated then deprecated_count + 1 else deprecated_count in
  latest_version <- lift (getitem pypi_info (lit "latest_version")) ;;
  response <- lift (new_PackageHealthResponse (pkg_name pkg) (pkg_version pkg)
                      latest_version is_outdated has_vulns (len vulnerabilities)
                      is_deprecated health_score recommendation vulnerabilities) ;;
  ret (results ++ [response], outdated_count, vulnerable_count, deprecated_count).

(** Body of the loop of lines 316-348. *)
Definition npm_body (st : loop_state) (pkg : PackageDependency) : M loop_state :=
  let '(results, outdated_count, vulnerable_count, deprecated_count) := st in
  npm_info <- check_npm_package (pkg_name pkg) (pkg_version pkg) ;;
  vulnerabilities <- check_vulnerabilities_osv (pkg_name pkg) (lit "npm") ;;
  is_outdated <- lift (getitem npm_info (lit "is_outdated")) ;;
  let has_vulns := 0 <? len vulnerabilities in
  is_deprecated <- lift (get npm_info (lit "deprecated") (VBool false)) ;;
  let health_score :=
    calculate_health_score (truthy is_outdated) (len vulnerabilities)
                           (truthy is_deprecated) in
  let recommendation :=
    get_recommendation health_score (truthy is_outdated) (len vulnerabilities)
                       (truthy is_deprecated) in
  let outdated_count :=
    if truthy is_outdated then outdated_count + 1 else outdated_count in
  let vulnerable_count :=
    if has_vulns then vulnerable_count + 1 else vulnerable_count in
  let deprecated_count :=
    if truthy is_deprecated then deprecated_count + 1 else deprecated_count in
  latest_version <- lift (getitem npm_info (lit "latest_version")) ;;
  response <- lift (new_PackageHealthResponse (pkg_name pkg) (pkg_version pkg)
                      latest_version is_outdated has_vulns (len vulnerabilities)
                      is_deprecated health_score recommendation vulnerabilities) ;;
  ret (results ++ [response], outdated_count, vulnerable_count, deprecated_count).

(** The aggregation both batch endpoints perform on the parsed [packages]
    (lines 231-280 and 311-360), over the body of their loop. *)
Definition aggregate (body : loop_state -> PackageDependency -> M loop_state)
    (packages : list PackageDependency) : M OverallHealthResponse :=
  st <- for_each body packages ([], 0, 0, 0) ;;
  let '(results, outdated_count, vulnerable_count, deprecated_count) := st in
  overall_score <- lift (overall_score results) ;;
  ret (mkOverallHealthResponse (len results) outdated_count vulnerable_count
         deprecated_count overall_score results).

(** [analyze_python_dependencies], lines 198-280. *)
Definition analyze_python_dependencies (request : PythonDependenciesRequest)
    : M OverallHealthResponse :=
  packages <- lift (parse_packages (req_packages request) []) ;;
  match packages with
  | [] => raise no_packages
  | _ :: _ => aggregate python_body packages
  end.

(** [analyze_npm_dependencies], lines 283-360. *)
Definition analyze_npm_dependencies (request : NpmDependenciesRequest)
    : M OverallHealthResponse :=
  all_deps <- lift (all_deps request) ;;
  let packages := npm_packages all_deps in
  match packages with
  | [] => raise no_packages
  | _ :: _ => aggregate npm_body packages
  end.

(** [check_single_package], lines 363-396. *)
Definition check_single_package (package : PackageDependency) (ecosystem : str)
    : M PackageHealthResponse :=
  if negb (existsb (str_eqb ecosystem) [lit "python"; lit "npm"])
  then raise bad_ecosystem
  else
    pkg_info <-
      (if str_eqb ecosystem (lit "python")
       then check_pypi_package (pkg_name package) (pkg_version package)
       else check_npm_package (pkg_name package) (pkg_version package)) ;;
    vulnerabilities <- check_vulnerabilities_osv (pkg_name package) ecosystem ;;
    is_outdated <- lift (get pkg_info (lit "is_outdated") (VBool false)) ;;
    let has_vulns := 0 <? len vulnerabilities in
    is_deprecated <- lift (get pkg_info (lit "deprecated") (VBool false)) ;;
    let health_score :=
      calculate_health_score (truthy is_outdated) (len vulnerabilities)
                             (truthy is_deprecated) in
    let recommendation :=
      get_recommendation health_score (truthy is_outdated) (len vulnerabilities)
                         (truthy is_deprecated) in
    latest_version <- lift (get pkg_info (lit "latest_version") VNone) ;;
    lift (new_PackageHealthResponse (pkg_name package) (pkg_version package)
            latest_version is_outdated has_vulns (len vulnerabilities)
            is_deprecated health_score recommendation vulnerabilities).

End Pipeline.

(** A scripted network for examples: the k-th request gets the k-th
    outcome of the script, and requests past its end fail. *)
Definition scripted (script : list http_outcome) : list request -> request -> http_outcome :=
  fun log _ => nth (List.length log) script Fails.

Definition ok200 (v : value) : http_outcome := Returns (mkResponse 200 (Some v)).


(** ** Specification-side notions *)

(** [sub] occurs in [s], with [pre] before it and [post] after it. *)
Definition splits_at (sub s pre post : str) : Prop := s = pre ++ sub ++ post.

Definition occurs (sub s : str) : Prop := exists pre post, splits_at sub s pre post.

(** The split at the leftmost occurrence of [sub]. *)
Definition first_split (sub s pre post : str) : Prop :=
  splits_at sub s pre post /\
  forall pre' post', splits_at sub s pre' post' -> (List.length pre <= List.length pre')%nat.

(** [t] is [s] without its leading and trailing whitespace. *)
Definition trimmed (s t : str) : Prop :=
  exists l r,
    s = l ++ t ++ r /\
    forallb isspace l = true /\ forallb isspace r = true /\
    (forall c t', t = c :: t' -> isspace c = false) /\
    (forall t' c, t = t' ++ [c] -> isspace c = false).

(** What the constraint-string rule of the parser asks of the dependency
    made from a trimmed entry [s], for the operators [ops] in priority
    order: split at the leftmost occurrence of the first operator of [ops]
    that occurs in [s], both sides trimmed; or, when none occurs, all of
    [s] as the name and no version. *)
Inductive entry_spec (ops : list str) (s : str) : PackageDependency -> Prop :=
| entry_split (ops1 : list str) (op : str) (ops2 : list str)
      (pre post name version : str) :
    ops = ops1 ++ op :: ops2 ->
    (forall op', In op' ops1 -> ~ occurs op' s) ->
    first_split op s pre post ->
    trimmed pre name ->
    trimmed post version ->
    entry_spec ops s (mkPackageDependency name (Some version))
| entry_whole :
    (forall op, In op ops -> ~ occurs op s) ->
    entry_spec ops s (mkPackageDependency s None).

(** The entries the parser passes over: empty once trimmed, or comments. *)
Definition skipped (entry : str) : Prop :=
  strip entry = [] \/ startswith (lit "#") (strip entry) = true.

(** What a lookup obtains from the outcome of its request: the decoded and
    handled body of a 200 response, or nothing. *)
Definition handled {A} (handle : value -> result A) (o : http_outcome) : option A :=
  match o with
  | Fails => None
  | Returns r =>
      if status_code r =? 200 then
        match body r with
        | Some data => match handle data with Ok a => Some a | Raise _ => None end
        | None => None
        end
      else None
  end.

(** The failures of a lookup: network error, status other than 200, a body
    that does not decode, a decoded body whose handling raises. *)
Inductive lookup_failure {A} (handle : value -> result A) : http_outcome -> Prop :=
| network_error : lookup_failure handle Fails
| non_success (st : Z) (b : option value) :
    st <> 200 -> lookup_failure handle (Returns (mkResponse st b))
| undecodable : lookup_failure handle (Returns (mkResponse 200 None))
| malformed (data : value) (e : exn) :
    handle data = Raise e ->
    lookup_failure handle (Returns (mkResponse 200 (Some data))).

(** A complete PackageHealth for the dependency [pkg]: every derived field
    agrees with the flags and the vulnerability list it is derived from. *)
Definition health_of (pkg : PackageDependency) (r : PackageHealthResponse) : Prop :=
  name r = pkg_name pkg /\
  current_version r = pkg_version pkg /\
  vulnerability_count r = len (vulnerabilities r) /\
  has_vulnerabilities r = (0 <? vulnerability_count r) /\
  health_score r =
    calculate_health_score (truthy (is_outdated r)) (vulnerability_count r)
                           (truthy (is_deprecated r)) /\
  recommendation r =
    get_recommendation (health_score r) (truthy (is_outdated r))
                       (vulnerability_count r) (truthy (is_deprecated r)).

(** The two requests the pipeline issues for one package. *)
Definition lookups (url : str -> str) (ecosystem : str) (pkg : PackageDependency)
    : list request :=
  [GET (url (pkg_name pkg));
   POST osv_url (osv_payload (pkg_name pkg) ecosystem)].

(** The field [k] of a dict, or [default]. *)
Definition field (k : str) (d : value) (default : value) : value :=
  match d with
  | VDict f => match dict_get k f with Some v => v | None => default end
  | _ => default
  end.


(** What the registry and the vulnerability database answer, given the
    requests issued before. *)
Definition registry_answer (net : list request -> request -> http_outcome)
    (log : list request) (url : str) (handle : value -> result value)
    (neutral : value) : value :=
  match handled handle (net log (GET url)) with
  | Some d => d
  | None => neutral
  end.

Definition advisories_answer (net : list request -> request -> http_outcome)
    (log : list request) (package_name ecosystem : str) : list value :=
  match handled osv_vulns
          (net log (POST osv_url (osv_payload package_name ecosystem))) with
  | Some vulns => fst (append_advisories vulns [])
  | None => []
  end.

(** The sum of a list of scores, and the floor of their average. *)
Fixpoint total (xs : list Z) : Z :=
  match xs with
  | [] => 0
  | x :: t => x + total t
  end.

Definition floor_average (scores : list Z) (q : Z) : Prop :=
  match scores with
  | [] => q = 0
  | _ :: _ => q * len scores <= total scores < (q + 1) * len scores
  end.

(** [r] with its health score replaced. *)
Definition with_score (score : Z) (r : PackageHealthResponse) : PackageHealthResponse :=
  mkPackageHealthResponse (name r) (current_version r) (latest_version r)
    (is_outdated r) (has_vulnerabilities r) (vulnerability_count r)
    (is_deprecated r) score (recommendation r) (vulnerabilities r).

(** The records [recs] are those of the advisories of [vulns] that come
    before the first advisory whose mapping raises (of all of them, when
    none raises). *)
Definition mapped_prefix (vulns recs : list value) : Prop :=
  exists good bad,
    vulns = good ++ bad /\
    Forall2 (fun a r => advisory_record a = Ok r) good recs /\
    match bad with
    | [] => True
    | a :: _ => exists e, advisory_record a = Raise e
    end.


(** An advisory object whose [severity] is absent, or a list whose first
    entry is an object, or a false value ([null], the empty list, ...). *)
Definition severity_well_formed (fields : list (str * value)) : Prop :=
  match dict_get (lit "severity") fields with
  | None => True
  | Some (VList (VDict _ :: _)) => True
  | Some v => truthy v = false
  end.

Definition well_formed_advisory (a : value) : Prop :=
  exists fields, a = VDict fields /\ severity_well_formed fields.


Fixpoint take_while (p : char -> bool) (s : str) : str :=
  match s with
  | [] => []
  | c :: t => if p c then c :: take_while p t else []
  end.


(** ** The file-content parsers (lines 51-84) *)

(** A captured group of the patterns of lines 62 and 79: a character class
    repeated greedily, at least [at_least] times ([+] is 1, [*] is 0). *)
Record group : Type := mkGroup { cls : char -> bool; at_least : nat }.

(** [re.match] of a sequence of such groups, anchored at the start of [s]:
    each group first takes the longest run of its class and gives
    characters back one at a time until the rest of the pattern matches.
    The result lists the captured groups. *)
Fixpoint re_match (groups : list group) (s : str) : option (list str) :=
  match groups with
  | [] => Some []
  | g :: rest =>
      (fix attempt (n : nat) : option (list str) :=
         let here :=
           if (at_least g <=? n)%nat then
             match re_match rest (skipn n s) with
             | Some captures => Some (firstn n s :: captures)
             | None => None
             end
           else None in
         match here with
         | Some captures => Some captures
         | None => match n with
                   | O => None
                   | S n' => attempt n'
                   end
         end) (List.length (take_while (cls g) s))
  end.

(** [[a-zA-Z0-9_-]] and [[>=<~!]] *)
Definition name_char (c : char) : bool :=
  ((97 <=? c) && (c <=? 122) || (65 <=? c) && (c <=? 90)
   || (48 <=? c) && (c <=? 57) || (c =? 95) || (c =? 45))%N.

Definition operator_char (c : char) : bool := mem c (lit ">=<~!").

(** [s.split(sep)] for a separator of one character. *)
Fixpoint split_on (sep : char) (s : str) : list str :=
  match s with
  | [] => [[]]
  | c :: t =>
      if (c =? sep)%N then [] :: split_on sep t
      else match split_on sep t with
           | piece :: more => (c :: piece) :: more
           | [] => [[c]]
           end
  end.

(** [**v] inside a dict display, for a decoded value. *)
Definition mapping_items (v : value) : result (list (str * value)) :=
  match v with
  | VDict d => Ok d
  | _ => Raise TypeError
  end.

Section FileParsers.

(** The class [\d] of Python's [re] on [str] patterns: the decimal digits
    of Unicode, a table of the interpreter. *)
Variable isdecimal : char -> bool.

(** [json.loads] on a [str], [None] when it raises [JSONDecodeError]. *)
Variable loads : str -> option value.

(** [[\d.]] and [[^\d]] *)
Definition version_char (c : char) : bool := isdecimal c || (c =? 46)%N.
Definition non_digit (c : char) : bool := negb (isdecimal c).

(** The pattern of line 62: one or more of [[a-zA-Z0-9_-]], then any number
    of [[>=<~!]], then any number of [[\d.]], each captured. *)
Definition requirement_pattern : list group :=
  [mkGroup name_char 1; mkGroup operator_char 0; mkGroup version_char 0].

(** Lines 57-66: one line of the loop of [parse_requirements_txt]. *)
Definition requirement_line (line : str) (packages : list PackageDependency)
    : list PackageDependency :=
  let line := strip line in
  if (match line with [] => true | _ => false end) || startswith (lit "#") line
  then packages
  else
    match re_match requirement_pattern line with
    | Some [group1; group2; group3] =>
        let name := group1 in
        let version := match group3 with [] => None | _ => Some group3 end in
        packages ++ [mkPackageDependency name version]
    | _ => packages
    end.

(** [parse_requirements_txt], lines 51-68. *)
Definition parse_requirements_txt (content : str) : list PackageDependency :=
  let packages := [] in
  let lines := split_on 10%N (strip content) in
  fold_left (fun packages line => requirement_line line packages) lines packages.

(** Line 79: [re.sub(r'^[^\d]*', '', version)]; the pattern can only match
    at the start, where it always does. *)
Definition sub_leading_non_digits (version : value) : result str :=
  match version with
  | VStr s =>
      match re_match [mkGroup non_digit 0] s with
      | Some [matched] => Ok (skipn (List.length matched) s)
      | _ => Ok s
      end
  | _ => Raise TypeError
  end.

(** Lines 77-80: the loop over [dependencies.items()]. *)
Fixpoint package_json_items (items : list (str * value))
    (packages : list PackageDependency) : result (list PackageDependency) :=
  match items with
  | [] => ret packages
  | (name, version) :: rest =>
      clean_version <- sub_leading_non_digits version ;;
      package_json_items rest
        (packages ++ [mkPackageDependency name (Some clean_version)])
  end.

(** [parse_package_json], lines 70-84: only [JSONDecodeError] is caught. *)
Definition parse_package_json (content : str) : result (list PackageDependency) :=
  let packages := [] in
  match loads content with
  | None => ret packages
  | Some data =>
      deps <- get data (lit "dependencies") (VDict []) ;;
      deps <- mapping_items deps ;;
      dev <- get data (lit "devDependencies") (VDict []) ;;
      dev <- mapping_items dev ;;
      let dependencies := dict_update (dict_update [] deps) dev in
      package_json_items dependencies packages
  end.

End FileParsers.

(** The ASCII digits, which every table of decimal digits contains. *)
Definition ascii_digit (c : char) : bool := ((48 <=? c) && (c <=? 57))%N.

(** ** Further specification-side notions *)


(** How many results satisfy [p]. *)
Definition count (p : PackageHealthResponse -> bool)
    (results : list PackageHealthResponse) : Z :=
  len (filter p results).

(** What holds of the PackageHealth of a package of a Python batch,
    besides its completeness. *)
Definition python_fact (pkg : PackageDependency) (r : PackageHealthResponse) : Prop :=
  health_of pkg r /\
  is_deprecated r = VBool false /\
  (exists b, is_outdated r = VBool b) /\
  (truthy_opt (pkg_version pkg) = false -> is_outdated r = VBool false).

(** The latest version and the deprecation marker in a decoded npm
    registry record. *)
Definition npm_latest (fields : list (str * value)) : value :=
  match dict_get (lit "dist-tags") fields with
  | Some (VDict tags) =>
      match dict_get (lit "latest") tags with
      | Some v => v
      | None => VNone
      end
  | _ => VNone
  end.

Definition npm_deprecated (fields : list (str * value)) : value :=
  match dict_get (lit "deprecated") fields with
  | Some v => v
  | None => VBool false
  end.

(** The version strings listed in a decoded PyPI record. *)
Definition pypi_releases (fields : list (str * value)) : list value :=
  match dict_get (lit "releases") fields with
  | Some (VDict rel) => map (fun kv => VStr (fst kv)) rel
  | _ => []
  end.

(** A requirement as [parse_requirements_txt] can return it, for the
    digits [digit]: a non-empty name of name characters and, when there is
    a version, a non-empty one of digits and dots. *)
Definition valid_requirement (digit : char -> bool) (dep : PackageDependency) : Prop :=
  pkg_name dep <> [] /\
  forallb name_char (pkg_name dep) = true /\
  match pkg_version dep with
  | None => True
  | Some v => v <> [] /\ forallb (version_char digit) v = true
  end.

(** The line [name==version], or [name] alone, of a requirement, and the
    text made of given lines. *)
Definition requirement_text (dep : PackageDependency) : str :=
  pkg_name dep ++
  match pkg_version dep with
  | Some v => lit "==" ++ v
  | None => []
  end.

Fixpoint join_lines (lines : list str) : str :=
  match lines with
  | [] => []
  | l :: rest =>
      match rest with
      | [] => l
      | _ :: _ => l ++ 10%N :: join_lines rest
      end
  end.

(** The decoded form of a JSON object whose values are strings. *)
Definition strings_dict (d : list (str * str)) : value :=
  VDict (map (fun kv => (fst kv, VStr (snd kv))) d).

(** A dependency whose version, when present, has lost its leading
    characters that are not decimal digits. *)
Definition from_first_digit (digit : char -> bool) (dep : PackageDependency)
    : PackageDependency :=
  mkPackageDependency (pkg_name dep)
    (option_map (lstrip_by (fun c => negb (digit c))) (pkg_version dep)).

(** ** Validated responses *)

(** The evaluation shared by the three endpoints (lines 243-268, 323-348
    and 378-396) with the construction of the response model: the score
    and the recommendation come from the truth values of the flags as the
    registry client returned them, the record holds the validated flags. *)
Definition evaluated (pkg : PackageDependency)
    (latest_version is_outdated is_deprecated : value)
    (vulnerabilities : list value) : result PackageHealthResponse :=
  let health_score :=
    calculate_health_score (truthy is_outdated) (len vulnerabilities)
                           (truthy is_deprecated) in
  new_PackageHealthResponse (pkg_name pkg) (pkg_version pkg) latest_version
    is_outdated (0 <? len vulnerabilities) (len vulnerabilities) is_deprecated
    health_score
    (get_recommendation health_score (truthy is_outdated) (len vulnerabilities)
                        (truthy is_deprecated))
    vulnerabilities.

(** The deprecation marker the npm registry client hands over. *)
Definition npm_marker (net : list request -> request -> http_outcome)
    (log : list request) (pkg : PackageDependency) : value :=
  field (lit "deprecated")
    (registry_answer net log (npm_url (pkg_name pkg))
       (npm_result (pkg_version pkg)) neutral_npm)
    (VBool false).

(** What the pipeline makes of one package of a Python batch, of an npm
    batch: its PackageHealth, or the validation error. *)
Definition python_outcome (net : list request -> request -> http_outcome)
    (log : list request) (pkg : PackageDependency) : result PackageHealthResponse :=
  let info := registry_answer net log (pypi_url (pkg_name pkg))
                (pypi_result (pkg_version pkg)) neutral_pypi in
  evaluated pkg (field (lit "latest_version") info VNone)
    (field (lit "is_outdated") info (VBool false)) (VBool false)
    (advisories_answer net (log ++ [GET (pypi_url (pkg_name pkg))])
       (pkg_name pkg) (lit "python")).

Definition npm_outcome (net : list request -> request -> http_outcome)
    (log : list request) (pkg : PackageDependency) : result PackageHealthResponse :=
  let info := registry_answer net log (npm_url (pkg_name pkg))
                (npm_result (pkg_version pkg)) neutral_npm in
  evaluated pkg (field (lit "latest_version") info VNone)
    (field (lit "is_outdated") info (VBool false))
    (npm_marker net log pkg)
    (advisories_answer net (log ++ [GET (npm_url (pkg_name pkg))])
       (pkg_name pkg) (lit "npm")).

(** One more result in the state of a batch loop; [deprecated] is the truth
    value of the deprecation marker before validation. *)
Definition advance (st : loop_state) (r : PackageHealthResponse) (deprecated : bool)
    : loop_state :=
  let '(results, outdated_count, vulnerable_count, deprecated_count) := st in
  (results ++ [r],
   (if truthy (is_outdated r) then outdated_count + 1 else outdated_count),
   (if has_vulnerabilities r then vulnerable_count + 1 else vulnerable_count),
   (if deprecated then deprecated_count + 1 else deprecated_count)).

(** A PackageHealth for the dependency [pkg] whose score and recommendation
    were computed with the deprecation flag [deprecated]. *)
Definition assessed (pkg : PackageDependency) (r : PackageHealthResponse)
    (deprecated : bool) : Prop :=
  name r = pkg_name pkg /\
  current_version r = pkg_version pkg /\
  vulnerability_count r = len (vulnerabilities r) /\
  has_vulnerabilities r = (0 <? vulnerability_count r) /\
  health_score r =
    calculate_health_score (truthy (is_outdated r)) (vulnerability_count r)
                           deprecated /\
  recommendation r =
    get_recommendation (health_score r) (truthy (is_outdated r))
                       (vulnerability_count r) deprecated.

(** The three validated fields of a response have their declared types. *)
Definition well_typed (r : PackageHealthResponse) : Prop :=
  (latest_version r = VNone \/ exists s, latest_version r = VStr s) /\
  (exists b, is_outdated r = VBool b) /\
  (exists b, is_deprecated r = VBool b).

(** What holds of the PackageHealth of a package of an npm batch, the
    deprecation marker having the truth value [deprecated]. *)
Definition npm_assessed (pkg : PackageDependency) (r : PackageHealthResponse)
    (deprecated : bool) : Prop :=
  assessed pkg r deprecated /\
  well_typed r /\
  (is_deprecated r = VBool true -> deprecated = true) /\
  (truthy_opt (pkg_version pkg) = false -> is_outdated r = VBool false).

(** A latest version the response model accepts. *)
Definition accepted_latest (v : value) : Prop := v = VNone \/ exists s, v = VStr s.

(** The registry answers for [pkg], after the requests of [log], with
    values of the declared types: when the client obtains a record, its
    latest version is a string or [None] and, for npm, its deprecation
    marker is a boolean. A failed lookup qualifies. *)
Definition typed_pypi_answer (net : list request -> request -> http_outcome)
    (log : list request) (pkg : PackageDependency) : Prop :=
  forall d,
    handled (pypi_result (pkg_version pkg)) (net log (GET (pypi_url (pkg_name pkg))))
      = Some d ->
    accepted_latest (field (lit "latest_version") d VNone).

Definition typed_npm_answer (net : list request -> request -> http_outcome)
    (log : list request) (pkg : PackageDependency) : Prop :=
  forall d,
    handled (npm_result (pkg_version pkg)) (net log (GET (npm_url (pkg_name pkg))))
      = Some d ->
    accepted_latest (field (lit "latest_version") d VNone) /\
    exists b, field (lit "deprecated") d (VBool false) = VBool b.



(** ** Strings: basic facts *)

Lemma str_eqb_eq (a b : str) : str_eqb a b = true <-> a = b.
Proof.
  revert b. induction a as [|x a IH]; intros [|y b]; simpl;
    try (split; [discriminate|discriminate]); [tauto|].
  rewrite andb_true_iff, N.eqb_eq, IH. split; [intros [-> ->]|intros [= -> ->]]; auto.
Qed.

Lemma str_eqb_refl (a : str) : str_eqb a a = true.
Proof. now apply str_eqb_eq. Qed.

Lemma str_eqb_neq (a b : str) : str_eqb a b = false <-> a <> b.
Proof.
  rewrite <- str_eqb_eq. destruct (str_eqb a b); split; congruence.
Qed.

Lemma startswith_spec (p s : str) :
  startswith p s = true <-> exists t, s = p ++ t.
Proof.
  revert s. induction p as [|a p IH]; intros s; simpl.
  - split; eauto.
  - destruct s as [|b t].
    + split; [discriminate | intros [t' H]; discriminate].
    + rewrite andb_true_iff, N.eqb_eq, IH. split.
      * intros [-> [t' ->]]. now exists t'.
      * intros [t' H]. injection H as -> ->. eauto.
Qed.

Lemma startswith_app (p t : str) : startswith p (p ++ t) = true.
Proof. apply startswith_spec. now exists t. Qed.

Lemma find_Some (sub s : str) (i : nat) :
  find sub s = Some i ->
  first_split sub s (firstn i s) (skipn (i + List.length sub) s).
Proof.
  revert i. induction s as [|c s IH]; intros i; simpl.
  - destruct (startswith sub []) eqn:E; [|discriminate].
    intros [= <-]. apply startswith_spec in E as [t E].
    symmetry in E. apply app_eq_nil in E as [-> ->].
    split; [reflexivity | intros; simpl; lia].
  - destruct (startswith sub (c :: s)) eqn:E.
    + intros [= <-]. apply startswith_spec in E as [t E].
      split; [|intros; simpl; lia].
      unfold splits_at. simpl firstn. simpl app. rewrite E at 2.
      simpl. now rewrite skipn_app, skipn_all, Nat.sub_diag.
    + destruct (find sub s) as [j|] eqn:F; [|discriminate].
      intros [= <-]. destruct (IH j eq_refl) as [Hs Hmin]. split.
      * unfold splits_at in *. simpl. now rewrite <- Hs.
      * intros pre' post' H'. destruct pre' as [|c' pre'].
        -- unfold splits_at in H'. simpl in H'.
           rewrite H', startswith_app in E. discriminate.
        -- unfold splits_at in H'. injection H' as _ H'.
           specialize (Hmin pre' post' H').
           rewrite length_firstn in *. simpl. lia.
Qed.

Lemma find_None (sub s : str) : find sub s = None -> ~ occurs sub s.
Proof.
  induction s as [|c s IH]; simpl.
  - destruct (startswith sub []) eqn:E; [discriminate|].
    intros _ (pre & post & H). unfold splits_at in H.
    symmetry in H. apply app_eq_nil in H as [-> H].
    apply app_eq_nil in H as [-> ->]. discriminate.
  - destruct (startswith sub (c :: s)) eqn:E; [discriminate|].
    destruct (find sub s) eqn:F; [discriminate|].
    intros _ (pre & post & H). unfold splits_at in H.
    destruct pre as [|c' pre].
    + simpl in H. rewrite H, startswith_app in E. discriminate.
    + injection H as _ H. apply IH; [reflexivity|]. now exists pre, post.
Qed.

Lemma contains_true (sub s : str) : contains sub s = true <-> occurs sub s.
Proof.
  unfold contains. destruct (find sub s) as [i|] eqn:F.
  - split; [intros _|reflexivity].
    destruct (find_Some _ _ _ F) as [H _]. eexists _, _. exact H.
  - split; [discriminate|]. intros H. now apply find_None in F.
Qed.

Lemma contains_false (sub s : str) : contains sub s = false <-> ~ occurs sub s.
Proof.
  rewrite <- contains_true. destruct (contains sub s); split; congruence.
Qed.

Lemma lstrip_by_decompose (p : char -> bool) (s : str) :
  exists l, s = l ++ lstrip_by p s /\ forallb p l = true /\
            forall c t, lstrip_by p s = c :: t -> p c = false.
Proof.
  induction s as [|c s (l & E & Hl & Hh)]; simpl.
  - exists []. repeat split; intros; discriminate.
  - destruct (p c) eqn:Pc.
    + exists (c :: l). simpl. rewrite Pc, Hl. repeat split; [congruence|assumption].
    + exists []. repeat split. intros c' t [= <- _]. assumption.
Qed.

Lemma rstrip_by_decompose (p : char -> bool) (s : str) :
  exists r, s = rstrip_by p s ++ r /\ forallb p r = true /\
            forall t c, rstrip_by p s = t ++ [c] -> p c = false.
Proof.
  unfold rstrip_by.
  destruct (lstrip_by_decompose p (rev s)) as (l & E & Hl & Hh).
  exists (rev l). repeat split.
  - rewrite <- rev_app_distr, <- E. now rewrite rev_involutive.
  - rewrite forallb_forall in *. intros x Hx. apply Hl. now apply in_rev.
  - intros t c H. apply (Hh c (rev t)).
    rewrite <- (rev_involutive (lstrip_by p (rev s))), H, rev_app_distr. reflexivity.
Qed.

Lemma rstrip_by_head (p : char -> bool) (s : str) (c : char) (t : str) :
  (forall c' t', s = c' :: t' -> p c' = false) ->
  rstrip_by p s = c :: t -> p c = false.
Proof.
  intros Hs H.
  destruct (rstrip_by_decompose p s) as (r & E & _ & _).
  rewrite H in E. simpl in E. eauto.
Qed.

Lemma strip_trimmed (s : str) : trimmed s (strip s).
Proof.
  unfold strip.
  destruct (lstrip_by_decompose isspace s) as (l & El & Hl & Hh).
  destruct (rstrip_by_decompose isspace (lstrip_by isspace s)) as (r & Er & Hr & Ht).
  exists l, r. repeat split; try assumption.
  - now rewrite <- Er.
  - intros c t' H. eapply rstrip_by_head; eauto.
Qed.

(** ** Parser: the operator scan *)

Lemma operators_nonempty : Forall (fun op : str => op <> []) operators.
Proof. repeat constructor; discriminate. Qed.

Lemma scan_operators_miss (ops1 ops2 : list str) (s : str)
    (packages : list PackageDependency) :
  (forall op, In op ops1 -> contains op s = false) ->
  scan_operators (ops1 ++ ops2) s packages = scan_operators ops2 s packages.
Proof.
  induction ops1 as [|op ops1 IH]; intros H; simpl; [reflexivity|].
  rewrite (H op) by now left. apply IH. intros; apply H. now right.
Qed.

Lemma scan_operators_hit (op : str) (ops2 : list str) (s : str) (i : nat)
    (packages : list PackageDependency) :
  op <> [] -> find op s = Some i ->
  scan_operators (op :: ops2) s packages =
  Ok (packages ++
      [mkPackageDependency (strip (firstn i s))
         (Some (strip (skipn (i + List.length op) s)))]).
Proof.
  intros Hop F. simpl. unfold contains, split1. rewrite F.
  destruct op; [congruence|]. reflexivity.
Qed.

Lemma scan_operators_none (ops : list str) (s : str)
    (packages : list PackageDependency) :
  (forall op, In op ops -> contains op s = false) ->
  scan_operators ops s packages = Ok (packages ++ [mkPackageDependency s None]).
Proof.
  intros H. rewrite <- (app_nil_r ops). now rewrite scan_operators_miss.
Qed.

(** The scan either selects an operator or finds none. *)
Lemma scan_selects (ops : list str) (s : str) :
  (exists ops1 op ops2 i,
      ops = ops1 ++ op :: ops2 /\
      (forall op', In op' ops1 -> contains op' s = false) /\
      find op s = Some i) \/
  (forall op, In op ops -> contains op s = false).
Proof.
  induction ops as [|op ops [(ops1 & op' & ops2 & i & -> & Hm & F)|Hn]].
  - right. intros op [].
  - destruct (find op s) as [j|] eqn:Fo.
    + left. exists [], op, (ops1 ++ op' :: ops2), j. repeat split; [intros ? []|assumption].
    + left. exists (op :: ops1), op', ops2, i. repeat split; [|assumption].
      intros o [<-|Ho]; [unfold contains; now rewrite Fo | now apply Hm].
  - destruct (find op s) as [j|] eqn:Fo.
    + left. exists [], op, ops, j. repeat split; [intros ? []|assumption].
    + right. intros o [<-|Ho]; [unfold contains; now rewrite Fo | now apply Hn].
Qed.

Lemma scan_operators_spec (ops : list str) (s : str) :
  Forall (fun op : str => op <> []) ops ->
  exists dep,
    (forall packages, scan_operators ops s packages = Ok (packages ++ [dep])) /\
    entry_spec ops s dep.
Proof.
  intros Hne.
  destruct (scan_selects ops s) as [(ops1 & op & ops2 & i & -> & Hm & F)|Hn].
  - assert (Hop : op <> []).
    { rewrite Forall_forall in Hne. apply Hne, in_elt. }
    exists (mkPackageDependency (strip (firstn i s))
              (Some (strip (skipn (i + List.length op) s)))).
    split.
    + intros packages. rewrite scan_operators_miss by assumption.
      now apply scan_operators_hit.
    + eapply entry_split; [reflexivity| |apply find_Some; exact F|apply strip_trimmed..].
      intros op' Hin. now apply contains_false, Hm.
  - eexists. split.
    + intros packages. now apply scan_operators_none.
    + apply entry_whole. intros op Hin. now apply contains_false, Hn.
Qed.

(** ** Parser: the loop over the entries *)

Lemma parse_packages_skip (entry : str) (rest : list str)
    (packages : list PackageDependency) :
  skipped entry ->
  parse_packages (entry :: rest) packages = parse_packages rest packages.
Proof.
  intros [H|H]; cbn [parse_packages]; rewrite H; [reflexivity|].
  now rewrite orb_true_r.
Qed.

Lemma not_skipped (entry : str) :
  strip entry <> [] -> startswith (lit "#") (strip entry) = false ->
  forall rest packages,
    parse_packages (entry :: rest) packages =
    (packages' <- scan_operators operators (strip entry) packages ;;
     parse_packages rest packages').
Proof.
  intros Hne Hc rest packages. cbn [parse_packages].
  rewrite Hc. destruct (strip entry); [congruence|reflexivity].
Qed.

Lemma skipped_dec (entry : str) :
  skipped entry \/
  (strip entry <> [] /\ startswith (lit "#") (strip entry) = false).
Proof.
  unfold skipped. destruct (strip entry) as [|c t] eqn:E; [now left; left|].
  destruct (startswith (lit "#") (c :: t)); [left; now right|right].
  split; [discriminate|reflexivity].
Qed.

(** The loop never raises, and what it appends does not depend on the
    packages collected before. *)
Lemma parse_packages_appends (entries : list str) :
  exists new, forall packages, parse_packages entries packages = Ok (packages ++ new).
Proof.
  induction entries as [|entry rest (new & IH)].
  - exists []. intros. simpl. now rewrite app_nil_r.
  - destruct (skipped_dec entry) as [Hs|[Hne Hc]].
    + exists new. intros. now rewrite parse_packages_skip.
    + destruct (scan_operators_spec operators (strip entry) operators_nonempty)
        as (dep & Hd & _).
      exists (dep :: new). intros packages.
      rewrite not_skipped by assumption. rewrite Hd. cbn [bind Monad_result].
      rewrite IH, <- app_assoc. reflexivity.
Qed.

Lemma parse_packages_app (before after : list str)
    (packages : list PackageDependency) :
  parse_packages (before ++ after) packages =
  (packages' <- parse_packages before packages ;; parse_packages after packages').
Proof.
  revert packages. induction before as [|entry before IH]; intros packages; [reflexivity|].
  destruct (skipped_dec entry) as [Hs|[Hne Hc]]; simpl app.
  - now rewrite !parse_packages_skip.
  - rewrite !not_skipped by assumption.
    destruct (scan_operators operators (strip entry) packages); [apply IH|reflexivity].
Qed.

(** ** Registry and vulnerability clients *)

Lemma handled_None {A} (handle : value -> result A) (o : http_outcome) :
  handled handle o = None <-> lookup_failure handle o.
Proof.
  split.
  - destruct o as [|[st [data|]]]; simpl; [constructor| |].
    + destruct (Z.eqb_spec st 200) as [->|Hst]; [|now constructor].
      destruct (handle data) eqn:E; [discriminate|]. intros _. now apply malformed with e.
    + destruct (Z.eqb_spec st 200) as [->|Hst]; constructor; assumption.
  - intros [|st b Hst| |data e E]; simpl; try reflexivity.
    + now apply Z.eqb_neq in Hst as ->.
    + now rewrite E.
Qed.

Lemma pypi_result_shape (current_version : option str) (data d : value) :
  pypi_result current_version data = Ok d ->
  exists lv b x,
    d = VDict [(lit "latest_version", lv); (lit "is_outdated", VBool b);
               (lit "releases", x)].
Proof.
  unfold pypi_result. cbn [bind Monad_result ret].
  destruct (getitem data (lit "info")) as [info|]; [|discriminate].
  destruct (getitem info (lit "version")) as [lv|]; [|discriminate].
  destruct (get data (lit "releases") (VDict [])) as [rel|]; [|discriminate].
  destruct (keys rel) as [ks|]; [|discriminate].
  intros [= <-]. eauto.
Qed.

Lemma npm_result_shape (current_version : option str) (data d : value) :
  npm_result current_version data = Ok d ->
  exists lv b x,
    d = VDict [(lit "latest_version", lv); (lit "is_outdated", VBool b);
               (lit "deprecated", x)].
Proof.
  unfold npm_result. cbn [bind Monad_result ret].
  destruct (get data (lit "dist-tags") (VDict [])) as [tags|]; [|discriminate].
  destruct (get tags (lit "latest") VNone) as [lv|]; [|discriminate].
  destruct (get data (lit "deprecated") (VBool false)) as [dep|]; [|discriminate].
  intros [= <-]. eauto.
Qed.

Section Clients.

Variable net : list request -> request -> http_outcome.

Lemma check_pypi_package_run (package_name : str) (current_version : option str)
    (log : list request) :
  check_pypi_package net package_name current_version log =
  (Ok (match handled (pypi_result current_version)
               (net log (GET (pypi_url package_name))) with
       | Some d => d
       | None => neutral_pypi
       end),
   log ++ [GET (pypi_url package_name)]).
Proof.
  unfold check_pypi_package, try_except, pypi_try, requests_get, send, handled.
  cbn [bind Monad_M ret].
  destruct (net log (GET (pypi_url package_name))) as [|[st b]]; [reflexivity|].
  cbn [status_code body]. destruct (st =? 200); [|reflexivity].
  unfold lift, response_json. cbn [body bind Monad_result ret].
  destruct b as [data|]; [|reflexivity].
  destruct (pypi_result current_version data); reflexivity.
Qed.

Lemma check_npm_package_run (package_name : str) (current_version : option str)
    (log : list request) :
  check_npm_package net package_name current_version log =
  (Ok (match handled (npm_result current_version)
               (net log (GET (npm_url package_name))) with
       | Some d => d
       | None => neutral_npm
       end),
   log ++ [GET (npm_url package_name)]).
Proof.
  unfold check_npm_package, try_except, npm_try, requests_get, send, handled.
  cbn [bind Monad_M ret].
  destruct (net log (GET (npm_url package_name))) as [|[st b]]; [reflexivity|].
  cbn [status_code body]. destruct (st =? 200); [|reflexivity].
  unfold lift, response_json. cbn [body bind Monad_result ret].
  destruct b as [data|]; [|reflexivity].
  destruct (npm_result current_version data); reflexivity.
Qed.

Lemma check_vulnerabilities_osv_run (package_name ecosystem : str)
    (log : list request) :
  check_vulnerabilities_osv net package_name ecosystem log =
  (Ok (match handled osv_vulns
               (net log (POST osv_url (osv_payload package_name ecosystem))) with
       | Some vulns => fst (append_advisories vulns [])
       | None => []
       end),
   log ++ [POST osv_url (osv_payload package_name ecosystem)]).
Proof.
  unfold check_vulnerabilities_osv, osv_try, requests_post, send, handled.
  destruct (net log (POST osv_url (osv_payload package_name ecosystem)))
    as [|[st b]]; [reflexivity|].
  cbn [status_code body]. destruct (st =? 200); [|reflexivity].
  unfold response_json. cbn [body bind Monad_result ret].
  destruct b as [data|]; [|reflexivity].
  destruct (osv_vulns data) as [vulns|]; [|reflexivity].
  destruct (append_advisories vulns []); reflexivity.
Qed.

End Clients.

(** ** The per-package step and the aggregation *)

Lemma handled_Some {A} (handle : value -> result A) (o : http_outcome) (a : A) :
  handled handle o = Some a ->
  exists data, o = Returns (mkResponse 200 (Some data)) /\ handle data = Ok a.
Proof.
  destruct o as [|[st [data|]]]; simpl; try discriminate.
  - destruct (Z.eqb_spec st 200) as [->|]; [|discriminate].
    destruct (handle data) eqn:E; [|discriminate].
    intros [= ->]. eauto.
  - destruct (st =? 200); discriminate.
Qed.


(** *** Validation of the response model *)

Lemma validate_bool_inv (v w : value) :
  validate_bool v = Ok w ->
  exists b, w = VBool b /\ (b = true -> truthy v = true).
Proof.
  destruct v as [|b|n|q|s|l|d]; cbn [validate_bool truthy]; try discriminate.
  - intros [= <-]. exists b. auto.
  - destruct (Z.eqb_spec n 0) as [->|Hn].
    + intros [= <-]. exists false. split; [reflexivity|discriminate].
    + destruct (n =? 1); [|discriminate]. intros [= <-]. exists true.
      split; reflexivity.
  - destruct (Qeq_bool q 0).
    + intros [= <-]. exists false. split; [reflexivity|discriminate].
    + destruct (Qeq_bool q 1); [|discriminate]. intros [= <-]. exists true. auto.
  - destruct (existsb _ false_strings).
    + intros [= <-]. exists false. split; [reflexivity|discriminate].
    + destruct (existsb _ true_strings) eqn:E; [|discriminate].
      intros [= <-]. exists true. split; [reflexivity|]. intros _.
      destruct s; [discriminate E|reflexivity].
Qed.

Lemma validate_bool_raise (v : value) (e : exn) :
  validate_bool v = Raise e -> e = ValidationError.
Proof.
  destruct v as [|b|n|q|s|l|d]; cbn [validate_bool]; try congruence.
  - destruct (n =? 0); [discriminate|]. destruct (n =? 1); congruence.
  - destruct (Qeq_bool q 0); [discriminate|]. destruct (Qeq_bool q 1); congruence.
  - destruct (existsb _ false_strings); [discriminate|].
    destruct (existsb _ true_strings); congruence.
Qed.

Lemma validate_optional_str_inv (v w : value) :
  validate_optional_str v = Ok w ->
  w = v /\ (v = VNone \/ exists s, v = VStr s).
Proof.
  destruct v; cbn [validate_optional_str]; try discriminate; intros [= <-]; eauto.
Qed.

Lemma validate_optional_str_raise (v : value) (e : exn) :
  validate_optional_str v = Raise e -> e = ValidationError.
Proof.
  destruct v; cbn [validate_optional_str]; congruence.
Qed.

Lemma evaluated_ok (pkg : PackageDependency) (lv d : value) (b : bool)
    (vulns : list value) (r : PackageHealthResponse) :
  evaluated pkg lv (VBool b) d vulns = Ok r ->
  assessed pkg r (truthy d) /\
  well_typed r /\
  latest_version r = lv /\
  is_outdated r = VBool b /\
  validate_bool d = Ok (is_deprecated r) /\
  vulnerabilities r = vulns.
Proof.
  unfold evaluated, new_PackageHealthResponse. cbn [bind Monad_result ret].
  destruct (validate_optional_str lv) as [lv'|] eqn:Elv; [|discriminate].
  change (validate_bool (VBool b)) with (Ok (VBool b)). cbv beta iota.
  destruct (validate_bool d) as [d'|] eqn:Ed; [|discriminate].
  intros [= <-].
  apply validate_optional_str_inv in Elv as (-> & Hlv).
  destruct (validate_bool_inv _ _ Ed) as (bd & -> & _).
  unfold assessed, well_typed.
  cbn [name current_version latest_version is_outdated has_vulnerabilities
       vulnerability_count is_deprecated health_score recommendation
       vulnerabilities truthy].
  repeat split; eauto.
Qed.

Lemma evaluated_raise (pkg : PackageDependency) (lv o d : value)
    (vulns : list value) (e : exn) :
  evaluated pkg lv o d vulns = Raise e -> e = ValidationError.
Proof.
  unfold evaluated, new_PackageHealthResponse. cbn [bind Monad_result ret].
  destruct (validate_optional_str lv) eqn:Elv;
    [|intros [= <-]; exact (validate_optional_str_raise _ _ Elv)].
  destruct (validate_bool o) eqn:Eo;
    [|intros [= <-]; exact (validate_bool_raise _ _ Eo)].
  destruct (validate_bool d) eqn:Ed;
    [discriminate|intros [= <-]; exact (validate_bool_raise _ _ Ed)].
Qed.

(** *** What the registry clients hand over *)

Lemma pypi_result_fields (current_version : option str) (data d : value) :
  pypi_result current_version data = Ok d ->
  exists lv ks,
    d = VDict [(lit "latest_version", lv);
               (lit "is_outdated",
                VBool (if truthy_opt current_version
                       then opt_ne current_version lv else false));
               (lit "releases", VList ks)].
Proof.
  unfold pypi_result. cbn [bind Monad_result ret].
  destruct (getitem data (lit "info")) as [info|]; [|discriminate].
  destruct (getitem info (lit "version")) as [lv|]; [|discriminate].
  destruct (get data (lit "releases") (VDict [])) as [rel|]; [|discriminate].
  destruct (keys rel) as [ks|]; [|discriminate].
  intros [= <-]. eauto.
Qed.

Lemma npm_result_fields (current_version : option str) (data d : value) :
  npm_result current_version data = Ok d ->
  exists lv dep,
    d = VDict [(lit "latest_version", lv);
               (lit "is_outdated",
                VBool (if truthy_opt current_version && truthy lv
                       then opt_ne current_version lv else false));
               (lit "deprecated", dep)].
Proof.
  unfold npm_result. cbn [bind Monad_result ret].
  destruct (get data (lit "dist-tags") (VDict [])) as [tags|]; [|discriminate].
  destruct (get tags (lit "latest") VNone) as [lv|]; [|discriminate].
  destruct (get data (lit "deprecated") (VBool false)) as [dep|]; [|discriminate].
  intros [= <-]. eauto.
Qed.

Lemma pypi_answer_outdated (net : list request -> request -> http_outcome)
    (log : list request) (package_name : str) (current_version : option str) :
  exists b,
    field (lit "is_outdated")
      (registry_answer net log (pypi_url package_name)
         (pypi_result current_version) neutral_pypi) (VBool false) = VBool b /\
    (truthy_opt current_version = false -> b = false).
Proof.
  unfold registry_answer.
  destruct (handled (pypi_result current_version) _) as [d|] eqn:E.
  - apply handled_Some in E as (data & _ & E).
    apply pypi_result_fields in E as (lv & ks & ->).
    eexists. split; [reflexivity|]. now intros ->.
  - exists false. split; reflexivity.
Qed.

Lemma npm_answer_outdated (net : list request -> request -> http_outcome)
    (log : list request) (package_name : str) (current_version : option str) :
  exists b,
    field (lit "is_outdated")
      (registry_answer net log (npm_url package_name)
         (npm_result current_version) neutral_npm) (VBool false) = VBool b /\
    (truthy_opt current_version = false -> b = false).
Proof.
  unfold registry_answer.
  destruct (handled (npm_result current_version) _) as [d|] eqn:E.
  - apply handled_Some in E as (data & _ & E).
    apply npm_result_fields in E as (lv & dep & ->).
    eexists. split; [reflexivity|]. now intros ->.
  - exists false. split; reflexivity.
Qed.

(** *** The per-package step *)

Section Steps.

Variable net : list request -> request -> http_outcome.

Lemma python_body_run (st : loop_state) (pkg : PackageDependency)
    (log : list request) :
  python_body net st pkg log =
  (match python_outcome net log pkg with
   | Ok r => Ok (advance st r false)
   | Raise e => Raise e
   end,
   log ++ lookups pypi_url (lit "python") pkg).
Proof.
  destruct st as [[[results oc] vc] dc].
  unfold python_body, python_outcome, evaluated, registry_answer,
         advisories_answer, lookups.
  cbn [bind Monad_M].
  rewrite check_pypi_package_run, check_vulnerabilities_osv_run.
  rewrite <- app_assoc. cbn [app].
  destruct (handled (pypi_result (pkg_version pkg)) _) as [d|] eqn:E.
  - apply handled_Some in E as (data & _ & E).
    apply pypi_result_shape in E as (lv & b & x & ->).
    destruct lv; reflexivity.
  - reflexivity.
Qed.

Lemma npm_body_run (st : loop_state) (pkg : PackageDependency)
    (log : list request) :
  npm_body net st pkg log =
  (match npm_outcome net log pkg with
   | Ok r => Ok (advance st r (truthy (npm_marker net log pkg)))
   | Raise e => Raise e
   end,
   log ++ lookups npm_url (lit "npm") pkg).
Proof.
  destruct st as [[[results oc] vc] dc].
  unfold npm_body, npm_outcome, npm_marker, evaluated, registry_answer,
         advisories_answer, lookups.
  cbn [bind Monad_M].
  rewrite check_npm_package_run, check_vulnerabilities_osv_run.
  rewrite <- app_assoc. cbn [app].
  destruct (handled (npm_result (pkg_version pkg)) _) as [d|] eqn:E.
  - apply handled_Some in E as (data & _ & E).
    apply npm_result_shape in E as (lv & b & x & ->).
    remember (VDict [(lit "latest_version", lv); (lit "is_outdated", VBool b);
                     (lit "deprecated", x)]) as d eqn:Hd.
    assert (E1 : getitem d (lit "is_outdated") = Ok (VBool b)) by now subst d.
    assert (E2 : get d (lit "deprecated") (VBool false) = Ok x) by now subst d.
    assert (E3 : getitem d (lit "latest_version") = Ok lv) by now subst d.
    assert (F1 : field (lit "latest_version") d VNone = lv) by now subst d.
    assert (F2 : field (lit "is_outdated") d (VBool false) = VBool b) by now subst d.
    assert (F3 : field (lit "deprecated") d (VBool false) = x) by now subst d.
    rewrite F1, F2, F3. clear Hd F1 F2 F3.
    unfold lift. cbn [bind Monad_M ret]. rewrite E1. cbv beta iota.
    rewrite E2. cbv beta iota. rewrite E3. cbv beta iota.
    unfold new_PackageHealthResponse. cbn [bind Monad_result ret].
    destruct (validate_optional_str lv); [|reflexivity].
    change (validate_bool (VBool b)) with (Ok (VBool b)). cbv beta iota.
    destruct (validate_bool x); reflexivity.
  - reflexivity.
Qed.

Lemma check_single_package_python (pkg : PackageDependency) (log : list request) :
  check_single_package net pkg (lit "python") log =
  (python_outcome net log pkg, log ++ lookups pypi_url (lit "python") pkg).
Proof.
  unfold check_single_package. cbn [existsb]. rewrite str_eqb_refl.
  cbn [orb negb bind Monad_M].
  unfold python_outcome, evaluated, registry_answer, advisories_answer, lookups.
  rewrite check_pypi_package_run, check_vulnerabilities_osv_run.
  rewrite <- app_assoc. cbn [app].
  destruct (handled (pypi_result (pkg_version pkg)) _) as [d|] eqn:E.
  - apply handled_Some in E as (data & _ & E).
    apply pypi_result_shape in E as (lv & b & x & ->). reflexivity.
  - reflexivity.
Qed.


Lemma python_outcome_fact (log : list request) (pkg : PackageDependency)
    (r : PackageHealthResponse) :
  python_outcome net log pkg = Ok r ->
  python_fact pkg r /\ well_typed r /\
  latest_version r =
    field (lit "latest_version")
      (registry_answer net log (pypi_url (pkg_name pkg))
         (pypi_result (pkg_version pkg)) neutral_pypi) VNone /\
  vulnerabilities r =
    advisories_answer net (log ++ [GET (pypi_url (pkg_name pkg))])
      (pkg_name pkg) (lit "python").
Proof.
  unfold python_outcome.
  destruct (pypi_answer_outdated net log (pkg_name pkg) (pkg_version pkg))
    as (b & -> & Hfalse).
  intros E. apply evaluated_ok in E as (Ha & Hw & Hlv & Ho & Hd & Hv).
  cbn [validate_bool] in Hd. injection Hd as Hd. symmetry in Hd.
  split; [|auto].
  unfold python_fact, health_of. rewrite Hd.
  split; [exact Ha|]. split; [reflexivity|]. split; [eauto|].
  intros H. now rewrite Ho, (Hfalse H).
Qed.

Lemma npm_outcome_fact (log : list request) (pkg : PackageDependency)
    (r : PackageHealthResponse) :
  npm_outcome net log pkg = Ok r ->
  npm_assessed pkg r (truthy (npm_marker net log pkg)) /\
  validate_bool (npm_marker net log pkg) = Ok (is_deprecated r) /\
  latest_version r =
    field (lit "latest_version")
      (registry_answer net log (npm_url (pkg_name pkg))
         (npm_result (pkg_version pkg)) neutral_npm) VNone /\
  vulnerabilities r =
    advisories_answer net (log ++ [GET (npm_url (pkg_name pkg))])
      (pkg_name pkg) (lit "npm").
Proof.
  unfold npm_outcome.
  destruct (npm_answer_outdated net log (pkg_name pkg) (pkg_version pkg))
    as (b & -> & Hfalse).
  intros E. apply evaluated_ok in E as (Ha & Hw & Hlv & Ho & Hd & Hv).
  repeat split; try assumption; try apply Ha; try apply Hw.
  - intros Ht. rewrite Ht in Hd.
    destruct (validate_bool_inv _ _ Hd) as (b' & [= <-] & Hb'). now apply Hb'.
  - intros H. now rewrite Ho, (Hfalse H).
Qed.



(** One step of the loop of a batch endpoint: it issues the two lookups of
    its package, and either adds its PackageHealth to the state or raises
    the validation error. *)
Lemma python_body_step (st : loop_state) (pkg : PackageDependency)
    (log : list request) :
  (exists r d,
      python_body net st pkg log =
        (Ok (advance st r d), log ++ lookups pypi_url (lit "python") pkg) /\
      d = false /\ python_fact pkg r) \/
  python_body net st pkg log =
    (Raise ValidationError, log ++ lookups pypi_url (lit "python") pkg).
Proof.
  rewrite python_body_run.
  destruct (python_outcome net log pkg) as [r|e] eqn:E.
  - left. exists r, false. split; [reflexivity|]. split; [reflexivity|].
    now apply python_outcome_fact in E.
  - right. unfold python_outcome in E. now apply evaluated_raise in E as ->.
Qed.

Lemma npm_body_step (st : loop_state) (pkg : PackageDependency)
    (log : list request) :
  (exists r d,
      npm_body net st pkg log =
        (Ok (advance st r d), log ++ lookups npm_url (lit "npm") pkg) /\
      npm_assessed pkg r d) \/
  npm_body net st pkg log =
    (Raise ValidationError, log ++ lookups npm_url (lit "npm") pkg).
Proof.
  rewrite npm_body_run.
  destruct (npm_outcome net log pkg) as [r|e] eqn:E.
  - left. exists r, (truthy (npm_marker net log pkg)). split; [reflexivity|].
    now apply npm_outcome_fact in E.
  - right. unfold npm_outcome in E. now apply evaluated_raise in E as ->.
Qed.

(** When the registry answers with values of the declared types, the
    response model is constructed. *)
Lemma failure_typed_pypi (log : list request) (pkg : PackageDependency) :
  lookup_failure (pypi_result (pkg_version pkg))
    (net log (GET (pypi_url (pkg_name pkg)))) ->
  typed_pypi_answer net log pkg.
Proof.
  intros H d E. apply handled_None in H. congruence.
Qed.

Lemma failure_typed_npm (log : list request) (pkg : PackageDependency) :
  lookup_failure (npm_result (pkg_version pkg))
    (net log (GET (npm_url (pkg_name pkg)))) ->
  typed_npm_answer net log pkg.
Proof.
  intros H d E. apply handled_None in H. congruence.
Qed.







End Steps.

(** *** The loop over the packages *)

Lemma count_cons (p : PackageHealthResponse -> bool) (r : PackageHealthResponse)
    (rs : list PackageHealthResponse) :
  count p (r :: rs) = (if p r then 1 else 0) + count p rs.
Proof.
  unfold count, len. cbn [filter]. destruct (p r); [|lia].
  cbn [List.length]. lia.
Qed.

Lemma count_bounds (p : PackageHealthResponse -> bool)
    (rs : list PackageHealthResponse) :
  0 <= count p rs <= len rs.
Proof.
  unfold count, len. pose proof (filter_length_le p rs). lia.
Qed.

Lemma fold_advance_counts (rds : list (PackageHealthResponse * bool))
    (results : list PackageHealthResponse) (a b c : Z) :
  fold_left (fun st rd => advance st (fst rd) (snd rd)) rds (results, a, b, c) =
  (results ++ map fst rds,
   a + count (fun r => truthy (is_outdated r)) (map fst rds),
   b + count has_vulnerabilities (map fst rds),
   c + len (filter snd rds)).
Proof.
  revert results a b c. induction rds as [|[r d] rds IH]; intros results a b c.
  - unfold count, len. simpl. rewrite app_nil_r.
    repeat (apply (f_equal2 (@pair _ _))); try reflexivity; lia.
  - cbn [fold_left advance fst snd map filter]. rewrite IH, !count_cons, <- app_assoc.
    cbn [app].
    destruct (truthy (is_outdated r)), (has_vulnerabilities r), d;
      unfold len; cbn [List.length];
      repeat (apply (f_equal2 (@pair _ _))); try reflexivity; lia.
Qed.

Lemma for_each_outcome (Q : PackageDependency -> PackageHealthResponse -> bool -> Prop)
    (body : loop_state -> PackageDependency -> M loop_state)
    (url : str -> str) (ecosystem : str) :
  (forall st pkg log,
      (exists r d,
          body st pkg log = (Ok (advance st r d), log ++ lookups url ecosystem pkg) /\
          Q pkg r d) \/
      body st pkg log = (Raise ValidationError, log ++ lookups url ecosystem pkg)) ->
  forall pkgs st log,
    (exists rds,
        for_each body pkgs st log =
          (Ok (fold_left (fun st rd => advance st (fst rd) (snd rd)) rds st),
           log ++ flat_map (lookups url ecosystem) pkgs) /\
        Forall2 (fun pkg rd => Q pkg (fst rd) (snd rd)) pkgs rds) \/
    (exists log', for_each body pkgs st log = (Raise ValidationError, log')).
Proof.
  intros Hbody. induction pkgs as [|pkg pkgs IH]; intros st log.
  - left. exists []. split; [|constructor]. simpl. now rewrite app_nil_r.
  - cbn [for_each bind Monad_M].
    destruct (Hbody st pkg log) as [(r & d & E & Hr)|E]; rewrite E; [|right; eauto].
    destruct (IH (advance st r d) (log ++ lookups url ecosystem pkg))
      as [(rds & E' & Hrds)|(log' & E')]; rewrite E'; [|right; eauto].
    left. exists ((r, d) :: rds). split; [|now constructor].
    cbn [flat_map fold_left fst snd]. now rewrite app_assoc.
Qed.

(** ** Aggregator arithmetic *)

Lemma sum_total (xs : list Z) : sum xs = total xs.
Proof.
  unfold sum. enough (H : forall a, fold_left Z.add xs a = a + total xs) by apply H.
  induction xs as [|x xs IH]; intros a; simpl; [lia|]. rewrite IH. lia.
Qed.

Lemma overall_score_floor (results : list PackageHealthResponse) :
  exists q, overall_score results = Ok q /\
            floor_average (map health_score results) q.
Proof.
  destruct results as [|r rs].
  - exists 0. split; reflexivity.
  - unfold overall_score, floordiv.
    assert (Hlen : 0 < len (r :: rs)) by (unfold len; simpl List.length; lia).
    destruct (Z.eqb_spec (len (r :: rs)) 0) as [E|_]; [lia|].
    eexists. split; [reflexivity|].
    rewrite sum_total. unfold floor_average. cbn [map].
    replace (len (health_score r :: map health_score rs)) with (len (r :: rs))
      by (unfold len; simpl; now rewrite length_map).
    set (t := total _). set (n := len _) in *.
    pose proof (Z.div_mod t n ltac:(lia)). pose proof (Z.mod_pos_bound t n Hlen). nia.
Qed.

(** The aggregation over a loop body that behaves as above: a response
    whose packages, counters and overall score are those of the steps, or
    the validation error. *)
Lemma aggregate_outcome (Q : PackageDependency -> PackageHealthResponse -> bool -> Prop)
    (body : loop_state -> PackageDependency -> M loop_state)
    (url : str -> str) (ecosystem : str) :
  (forall st pkg log,
      (exists r d,
          body st pkg log = (Ok (advance st r d), log ++ lookups url ecosystem pkg) /\
          Q pkg r d) \/
      body st pkg log = (Raise ValidationError, log ++ lookups url ecosystem pkg)) ->
  forall pkgs log,
    (exists resp rds,
        aggregate body pkgs log =
          (Ok resp, log ++ flat_map (lookups url ecosystem) pkgs) /\
        packages resp = map fst rds /\
        Forall2 (fun pkg rd => Q pkg (fst rd) (snd rd)) pkgs rds /\
        total_packages resp = len (packages resp) /\
        outdated_count resp = count (fun r => truthy (is_outdated r)) (packages resp) /\
        vulnerable_count resp = count has_vulnerabilities (packages resp) /\
        deprecated_count resp = len (filter snd rds) /\
        overall_score (packages resp) = Ok (overall_health_score resp) /\
        floor_average (map health_score (packages resp)) (overall_health_score resp)) \/
    (exists log', aggregate body pkgs log = (Raise ValidationError, log')).
Proof.
  intros Hbody pkgs log. unfold aggregate. cbn [bind Monad_M].
  destruct (for_each_outcome Q body url ecosystem Hbody pkgs ([], 0, 0, 0) log)
    as [(rds & E & Hrds)|(log' & E)]; rewrite E; [|right; eauto].
  left. rewrite fold_advance_counts. cbn [app].
  destruct (overall_score_floor (map fst rds)) as (q & Hq & Hfloor).
  unfold lift. rewrite Hq. eexists _, rds. split; [reflexivity|].
  cbn [packages total_packages outdated_count vulnerable_count deprecated_count
       overall_health_score]. auto 10.
Qed.

Lemma Forall2_map_r {A B C} (R : A -> C -> Prop) (f : B -> C)
    (l : list A) (l' : list B) :
  Forall2 (fun a b => R a (f b)) l l' -> Forall2 R l (map f l').
Proof. induction 1; constructor; auto. Qed.


Lemma Forall2_impl {A B} (R R' : A -> B -> Prop) (l : list A) (l' : list B) :
  (forall a b, R a b -> R' a b) -> Forall2 R l l' -> Forall2 R' l l'.
Proof. intros H. induction 1; constructor; auto. Qed.

Lemma Forall2_right {A B} (Q : A -> B -> Prop) (P : B -> Prop)
    (l : list A) (l' : list B) :
  (forall a b, Q a b -> P b) -> Forall2 Q l l' -> Forall P l'.
Proof.
  intros H. induction 1; constructor; eauto.
Qed.

Lemma count_ext (p q : PackageHealthResponse -> bool)
    (rs : list PackageHealthResponse) :
  Forall (fun r => p r = q r) rs -> count p rs = count q rs.
Proof.
  intros H. unfold count. f_equal. apply filter_ext_in.
  now apply Forall_forall.
Qed.

Lemma count_none (p : PackageHealthResponse -> bool)
    (rs : list PackageHealthResponse) :
  Forall (fun r => p r = false) rs -> count p rs = 0.
Proof.
  induction 1 as [|r rs Hr _ IH]; [reflexivity|].
  now rewrite count_cons, Hr, IH.
Qed.

Lemma filter_snd_none {A} (rds : list (A * bool)) :
  Forall (fun rd => snd rd = false) rds -> filter snd rds = [].
Proof.
  induction 1 as [|rd rds Hrd _ IH]; [reflexivity|].
  cbn [filter]. now rewrite Hrd.
Qed.

(** The outcomes of the aggregation of a Python batch, of an npm batch. *)
Lemma aggregate_python_outcome (net : list request -> request -> http_outcome)
    (pkgs : list PackageDependency) (log : list request) :
  (exists resp,
      aggregate (python_body net) pkgs log =
        (Ok resp, log ++ flat_map (lookups pypi_url (lit "python")) pkgs) /\
      Forall2 python_fact pkgs (packages resp) /\
      total_packages resp = len (packages resp) /\
      outdated_count resp = count (fun r => truthy (is_outdated r)) (packages resp) /\
      vulnerable_count resp = count has_vulnerabilities (packages resp) /\
      deprecated_count resp = 0 /\
      overall_score (packages resp) = Ok (overall_health_score resp) /\
      floor_average (map health_score (packages resp)) (overall_health_score resp)) \/
  (exists log', aggregate (python_body net) pkgs log = (Raise ValidationError, log')).
Proof.
  destruct (aggregate_outcome (fun pkg r d => d = false /\ python_fact pkg r)
              (python_body net) pypi_url (lit "python") (python_body_step net) pkgs log)
    as [(resp & rds & E & Hp & Hall & Ht & Ho & Hv & Hd & Hs & Hf)|H]; [left|now right].
  exists resp. split; [exact E|]. rewrite Hp in *.
  split; [apply Forall2_map_r; eapply Forall2_impl; [|exact Hall]; now intros a b [_ H]|].
  repeat (split; [assumption|]). split; [|auto].
  rewrite Hd, filter_snd_none; [reflexivity|].
  eapply Forall2_right; [|exact Hall]. now intros a b [H _].
Qed.

Lemma aggregate_npm_outcome (net : list request -> request -> http_outcome)
    (pkgs : list PackageDependency) (log : list request) :
  (exists resp rds,
      aggregate (npm_body net) pkgs log =
        (Ok resp, log ++ flat_map (lookups npm_url (lit "npm")) pkgs) /\
      packages resp = map fst rds /\
      Forall2 (fun pkg rd => npm_assessed pkg (fst rd) (snd rd)) pkgs rds /\
      total_packages resp = len (packages resp) /\
      outdated_count resp = count (fun r => truthy (is_outdated r)) (packages resp) /\
      vulnerable_count resp = count has_vulnerabilities (packages resp) /\
      deprecated_count resp = len (filter snd rds) /\
      overall_score (packages resp) = Ok (overall_health_score resp) /\
      floor_average (map health_score (packages resp)) (overall_health_score resp)) \/
  (exists log', aggregate (npm_body net) pkgs log = (Raise ValidationError, log')).
Proof.
  exact (aggregate_outcome npm_assessed (npm_body net) npm_url (lit "npm")
           (npm_body_step net) pkgs log).
Qed.

Lemma aggregate_python_inv (net : list request -> request -> http_outcome)
    (pkgs : list PackageDependency) (log log' : list request)
    (resp : OverallHealthResponse) :
  aggregate (python_body net) pkgs log = (Ok resp, log') ->
  log' = log ++ flat_map (lookups pypi_url (lit "python")) pkgs /\
  Forall2 python_fact pkgs (packages resp) /\
  total_packages resp = len (packages resp) /\
  outdated_count resp = count (fun r => truthy (is_outdated r)) (packages resp) /\
  vulnerable_count resp = count has_vulnerabilities (packages resp) /\
  deprecated_count resp = 0 /\
  overall_score (packages resp) = Ok (overall_health_score resp) /\
  floor_average (map health_score (packages resp)) (overall_health_score resp).
Proof.
  intros E.
  destruct (aggregate_python_outcome net pkgs log) as [(resp' & E' & H)|(l & E')];
    rewrite E in E'; [|discriminate].
  injection E' as <- <-. auto.
Qed.

Lemma aggregate_npm_inv (net : list request -> request -> http_outcome)
    (pkgs : list PackageDependency) (log log' : list request)
    (resp : OverallHealthResponse) :
  aggregate (npm_body net) pkgs log = (Ok resp, log') ->
  exists rds,
    log' = log ++ flat_map (lookups npm_url (lit "npm")) pkgs /\
    packages resp = map fst rds /\
    Forall2 (fun pkg rd => npm_assessed pkg (fst rd) (snd rd)) pkgs rds /\
    total_packages resp = len (packages resp) /\
    outdated_count resp = count (fun r => truthy (is_outdated r)) (packages resp) /\
    vulnerable_count resp = count has_vulnerabilities (packages resp) /\
    deprecated_count resp = len (filter snd rds) /\
    overall_score (packages resp) = Ok (overall_health_score resp) /\
    floor_average (map health_score (packages resp)) (overall_health_score resp).
Proof.
  intros E.
  destruct (aggregate_npm_outcome net pkgs log) as [(resp' & rds & E' & H)|(l & E')];
    rewrite E in E'; [|discriminate].
  injection E' as <- <-. exists rds. auto.
Qed.







Lemma len_Forall2 {A B} (R : A -> B -> Prop) (l : list A) (l' : list B) :
  Forall2 R l l' -> len l' = len l.
Proof. intros H. unfold len. now rewrite (Forall2_length H). Qed.





(** ** Health Evaluator: score and recommendation *)

(** C1. For every outdated flag, vulnerability count and deprecation flag,
    the score is [max(0, 100 - (20 if outdated) - (min(count * 15, 50) if
    count > 0) - (30 if deprecated))]: the penalties add up, all that apply
    are subtracted, and the result is never negative. *)
Theorem health_score_formula
    (is_outdated : bool) (vulnerability_count : nat) (is_deprecated : bool) :
  let n := Z.of_nat vulnerability_count in
  calculate_health_score is_outdated n is_deprecated =
    Z.max 0 (100 - (if is_outdated then 20 else 0)
                 - (if 0 <? n then Z.min (n * 15) 50 else 0)
                 - (if is_deprecated then 30 else 0))
  /\ 0 <= calculate_health_score is_outdated n is_deprecated.
Proof.
  intros n. unfold calculate_health_score.
  destruct is_outdated, is_deprecated, (0 <? n); lia.
Qed.

(** C9. The score never increases when one more vulnerability is counted,
    when the package becomes deprecated, or when it becomes outdated. *)
Theorem health_score_monotone
    (is_outdated : bool) (vulnerability_count : Z) (is_deprecated : bool) :
  calculate_health_score is_outdated (vulnerability_count + 1) is_deprecated
    <= calculate_health_score is_outdated vulnerability_count is_deprecated
  /\ calculate_health_score is_outdated vulnerability_count true
    <= calculate_health_score is_outdated vulnerability_count false
  /\ calculate_health_score true vulnerability_count is_deprecated
    <= calculate_health_score false vulnerability_count is_deprecated.
Proof.
  unfold calculate_health_score.
  destruct (Z.ltb_spec 0 (vulnerability_count + 1)),
           (Z.ltb_spec 0 vulnerability_count), is_outdated, is_deprecated; lia.
Qed.

Lemma lit_inj (a b : string) : lit a = lit b -> a = b.
Proof.
  unfold lit. revert b. induction a as [|x a IH]; intros [|y b]; simpl;
    try discriminate; [reflexivity|].
  intros [= Hx Hab]. f_equal; [|now apply IH].
  rewrite <- (ascii_N_embedding x), <- (ascii_N_embedding y). now rewrite Hx.
Qed.

Lemma str_of_int_inj (n m : Z) : str_of_int n = str_of_int m -> n = m.
Proof.
  unfold str_of_int. intros H. apply lit_inj in H.
  assert (Hnn : forall z, Z.to_int z <> Decimal.Pos Decimal.Nil /\
                          Z.to_int z <> Decimal.Neg Decimal.Nil).
  { intros [|p|p]; simpl; split; try discriminate;
      intros [= E]; now apply DecimalPos.Unsigned.to_uint_nonnil in E. }
  assert (E : Some (Z.to_int n) = Some (Z.to_int m)).
  { rewrite <- (NilZero.isi (Z.to_int n)), <- (NilZero.isi (Z.to_int m));
      try apply Hnn. now rewrite H. }
  injection E as E. rewrite <- (DecimalZ.of_to n), <- (DecimalZ.of_to m). now rewrite E.
Qed.

(** C2. The recommendation is chosen by priority, whatever the score:
    the deprecation message for a deprecated package, whatever its count and
    outdated flag; otherwise the urgent message, carrying the count in
    decimal, when the count is positive; otherwise the update message when
    outdated; otherwise the healthy message. Different counts give
    different urgent messages. *)
Theorem recommendation_priority
    (health_score other_score : Z) (is_outdated : bool)
    (vulnerability_count : nat) (is_deprecated : bool) :
  let n := Z.of_nat vulnerability_count in
  get_recommendation health_score is_outdated n is_deprecated =
    (if is_deprecated then
       [9888; 65039]%N
         ++ lit " CRITICAL: Package is deprecated. Find an alternative immediately."
     else if 0 <? n then
       [128680]%N ++ lit " URGENT: " ++ str_of_int n
         ++ lit " vulnerabilities found. Update immediately."
     else if is_outdated then [9889]%N ++ lit " Update recommended to latest version."
     else [9989]%N ++ lit " Package is healthy and up-to-date.")
  /\ get_recommendation health_score is_outdated n is_deprecated =
     get_recommendation other_score is_outdated n is_deprecated
  /\ get_recommendation health_score is_outdated n true = msg_deprecated
  /\ (forall m : Z, msg_vulnerable n = msg_vulnerable m <-> n = m).
Proof.
  intros n. repeat split.
  - intros H. unfold msg_vulnerable in H.
    apply app_inv_head in H. apply app_inv_head in H.
    apply app_inv_tail in H. now apply str_of_int_inj.
  - now intros ->.
Qed.

(** ** Aggregator: the overall score *)

(** C3. The overall score of a batch is the floor of the average of the
    per-package scores, and 0 for the empty batch; computing it never
    raises. Scores 100, 50 and 30 give 60. Whenever the aggregation of a
    Python or of an npm batch returns a response, the response holds one
    PackageHealth for each package of the batch, in order, each with the
    score of the Health Evaluator, [total_packages] is the number of
    packages of the batch, and [overall_health_score] is what
    [overall_score] computes from those PackageHealths, the floor of the
    average of their scores. *)
Theorem overall_health_score_floor_average
    (net : list request -> request -> http_outcome)
    (results : list PackageHealthResponse) (r1 r2 r3 : PackageHealthResponse)
    (pkgs : list PackageDependency) (log log' : list request)
    (resp : OverallHealthResponse) :
  (exists q, overall_score results = Ok q /\
             floor_average (map health_score results) q)
  /\ overall_score [] = Ok 0
  /\ overall_score [with_score 100 r1; with_score 50 r2; with_score 30 r3] = Ok 60
  /\ (aggregate (python_body net) pkgs log = (Ok resp, log') \/
      aggregate (npm_body net) pkgs log = (Ok resp, log') ->
      Forall2 (fun pkg r => exists deprecated, assessed pkg r deprecated)
              pkgs (packages resp) /\
      total_packages resp = len pkgs /\
      overall_score (packages resp) = Ok (overall_health_score resp) /\
      floor_average (map health_score (packages resp)) (overall_health_score resp) /\
      (pkgs = [] -> overall_health_score resp = 0)).
Proof.
  split; [apply overall_score_floor|]. split; [reflexivity|]. split; [reflexivity|].
  intros H.
  assert (Hfacts :
            Forall2 (fun pkg r => exists deprecated, assessed pkg r deprecated)
                    pkgs (packages resp) /\
            total_packages resp = len (packages resp) /\
            overall_score (packages resp) = Ok (overall_health_score resp) /\
            floor_average (map health_score (packages resp))
                          (overall_health_score resp)).
  { destruct H as [H|H].
    - apply aggregate_python_inv in H as (_ & Hall & Ht & _ & _ & _ & Hs & Hf).
      repeat split; try assumption.
      eapply Forall2_impl; [|exact Hall].
      intros pkg r (Hh & Hd & _). exists false.
      unfold health_of in Hh. rewrite Hd in Hh. exact Hh.
    - apply aggregate_npm_inv in H as (rds & _ & Hp & Hall & Ht & _ & _ & _ & Hs & Hf).
      repeat split; try assumption.
      rewrite Hp. apply Forall2_map_r. eapply Forall2_impl; [|exact Hall].
      intros pkg rd (Ha & _). now exists (snd rd). }
  destruct Hfacts as (Hall & Ht & Hs & Hf).
  split; [exact Hall|]. split; [now rewrite Ht, (len_Forall2 _ _ _ Hall)|].
  split; [exact Hs|]. split; [exact Hf|].
  intros ->. apply Forall2_length in Hall.
  destruct (packages resp); [exact Hf|discriminate].
Qed.

Lemma overall_health_score_floor_average_witness :
  let advisories := VList [VDict []; VDict []; VDict []; VDict []] in
  let net :=
    scripted [ok200 (VDict [(lit "info", VDict [(lit "version", VStr (lit "3.0.1"))])]);
              ok200 (VDict []);
              ok200 (VDict [(lit "info", VDict [(lit "version", VStr (lit "1.0"))])]);
              ok200 (VDict [(lit "vulns", advisories)]);
              ok200 (VDict [(lit "info", VDict [(lit "version", VStr (lit "2.0"))])]);
              ok200 (VDict [(lit "vulns", advisories)])] in
  let pkgs := [mkPackageDependency (lit "flask") None;
               mkPackageDependency (lit "numpy") (Some (lit "1.0"));
               mkPackageDependency (lit "django") (Some (lit "1.0"))] in
  exists resp log',
    aggregate (python_body net) pkgs [] = (Ok resp, log') /\
    map health_score (packages resp) = [100; 50; 30] /\
    overall_health_score resp = 60 /\
    total_packages resp = len pkgs /\
    overall_score (packages resp) = Ok (overall_health_score resp).
Proof.
  intros advisories net pkgs.
  eexists _, _. split; [vm_compute; reflexivity|].
  split; [reflexivity|]. split; [reflexivity|].
  refine (let H := proj2 (proj2 (proj2 (overall_health_score_floor_average
                      net [] _ _ _ pkgs [] _ _))) _ in
          conj (proj1 (proj2 H)) (proj1 (proj2 (proj2 H))));
    try exact (with_score 0 (mkPackageHealthResponse [] None VNone VNone false 0 VNone 0 [] [])).
  left. vm_compute. reflexivity.
Defined.

(** ** Dependency Parser: constraint strings *)

(** C4. An entry that is neither empty once trimmed nor a comment yields
    one dependency, returned at the entry's place among the dependencies
    of the batch: with the operators tried in the order ==, >=, <=, >, <,
    ~=, the entry is split at the leftmost occurrence of the first operator
    that occurs in it, name and version being the two sides trimmed; when
    no operator occurs, the trimmed entry is the name and there is no
    version. *)
Theorem parser_splits_at_first_operator
    (entry : str) (before after : list str) :
  strip entry <> [] ->
  startswith (lit "#") (strip entry) = false ->
  exists dep pre post,
    parse_packages before [] = Ok pre /\
    parse_packages after [] = Ok post /\
    parse_packages (before ++ entry :: after) [] = Ok (pre ++ dep :: post) /\
    parse_packages [entry] [] = Ok [dep] /\
    (forall rest packages,
        parse_packages (entry :: rest) packages =
        parse_packages rest (packages ++ [dep])) /\
    trimmed entry (strip entry) /\
    entry_spec [lit "=="; lit ">="; lit "<="; lit ">"; lit "<"; lit "~="]
               (strip entry) dep.
Proof.
  intros Hne Hc.
  destruct (scan_operators_spec operators (strip entry) operators_nonempty)
    as (dep & Hscan & Hspec).
  assert (Hstep : forall rest packages,
             parse_packages (entry :: rest) packages =
             parse_packages rest (packages ++ [dep])).
  { intros rest packages. rewrite not_skipped by assumption. now rewrite Hscan. }
  destruct (parse_packages_appends before) as (pre & Hpre).
  destruct (parse_packages_appends after) as (post & Hpost).
  exists dep, pre, post.
  split; [apply (Hpre [])|]. split; [apply (Hpost [])|].
  split; [|split; [apply Hstep|split; [exact Hstep|split; [apply strip_trimmed|exact Hspec]]]].
  rewrite parse_packages_app, Hpre. cbn [bind Monad_result app].
  now rewrite Hstep, Hpost, <- app_assoc.
Qed.

Lemma parser_splits_at_first_operator_witness :
  exists dep pre post,
    parse_packages [lit "# web"; lit "flask==2.0.1"] [] = Ok pre /\
    parse_packages [lit "numpy"] [] = Ok post /\
    parse_packages ([lit "# web"; lit "flask==2.0.1"] ++
                    lit " requests >= 2.25.0 " :: [lit "numpy"]) [] =
      Ok (pre ++ dep :: post) /\
    parse_packages [lit " requests >= 2.25.0 "] [] = Ok [dep] /\
    (forall rest packages,
        parse_packages (lit " requests >= 2.25.0 " :: rest) packages =
        parse_packages rest (packages ++ [dep])) /\
    trimmed (lit " requests >= 2.25.0 ") (strip (lit " requests >= 2.25.0 ")) /\
    entry_spec [lit "=="; lit ">="; lit "<="; lit ">"; lit "<"; lit "~="]
               (strip (lit " requests >= 2.25.0 ")) dep.
Proof.
  apply (parser_splits_at_first_operator (lit " requests >= 2.25.0 ")
           [lit "# web"; lit "flask==2.0.1"] [lit "numpy"]).
  - vm_compute. discriminate.
  - vm_compute. reflexivity.
Defined.

(** ** Validation errors *)

Lemma all_skipped (entries : list str) (packages : list PackageDependency) :
  (forall e, In e entries -> skipped e) ->
  parse_packages entries packages = Ok packages.
Proof.
  induction entries as [|e entries IH]; intros H; [reflexivity|].
  rewrite parse_packages_skip by (apply H; now left).
  apply IH. intros; apply H; now right.
Qed.

(** C6. Entries that are empty once trimmed, or that start with [#], are
    passed over; a batch that yields no dependency (in particular one whose
    entries are all passed over), and an ecosystem other than python and
    npm, are answered with a 400 error, raised before any request is
    issued. *)
Theorem validation_errors_precede_lookups
    (net : list request -> request -> http_outcome)
    (before after : list str) (entry : str) (collected : list PackageDependency)
    (batch : PythonDependenciesRequest)
    (package : PackageDependency) (ecosystem : str) (log : list request) :
  (skipped entry ->
   parse_packages (before ++ entry :: after) collected =
   parse_packages (before ++ after) collected)
  /\ ((forall e, In e (req_packages batch) -> skipped e) ->
      parse_packages (req_packages batch) [] = Ok [])
  /\ (parse_packages (req_packages batch) [] = Ok [] ->
      analyze_python_dependencies net batch log =
      (Raise (HTTPException 400
                (lit "No valid packages found in the provided content")), log))
  /\ (ecosystem <> lit "python" -> ecosystem <> lit "npm" ->
      check_single_package net package ecosystem log =
      (Raise (HTTPException 400 (lit "Ecosystem must be 'python' or 'npm'")), log)).
Proof.
  repeat split.
  - intros Hs. rewrite !parse_packages_app.
    destruct (parse_packages before collected); [|reflexivity].
    cbn [bind Monad_result]. now apply parse_packages_skip.
  - apply all_skipped.
  - intros H. unfold analyze_python_dependencies, lift. cbn [bind Monad_M].
    now rewrite H.
  - intros Hp Hn. unfold check_single_package. cbn [existsb].
    apply str_eqb_neq in Hp, Hn. now rewrite Hp, Hn.
Qed.

Lemma validation_errors_precede_lookups_witness :
  let net := scripted [] in
  let batch := mkPythonDependenciesRequest [lit "   "; lit " # a comment"] in
  parse_packages ([lit "flask"] ++ lit "#x" :: [lit "numpy"]) [] =
    parse_packages ([lit "flask"] ++ [lit "numpy"]) []
  /\ parse_packages (req_packages batch) [] = Ok []
  /\ analyze_python_dependencies net batch [] =
     (Raise (HTTPException 400
               (lit "No valid packages found in the provided content")), [])
  /\ check_single_package net (mkPackageDependency (lit "flask") None) (lit "ruby") [] =
     (Raise (HTTPException 400 (lit "Ecosystem must be 'python' or 'npm'")), []).
Proof.
  intros net batch.
  pose proof (validation_errors_precede_lookups net [lit "flask"] [lit "numpy"]
                (lit "#x") [] batch (mkPackageDependency (lit "flask") None)
                (lit "ruby") []) as (H1 & H2 & H3 & H4).
  split; [apply H1; right; vm_compute; reflexivity|].
  split; [apply H2; intros e [<-|[<-|[]]]; [left|right]; vm_compute; reflexivity|].
  split; [apply H3; vm_compute; reflexivity|].
  apply H4; vm_compute; discriminate.
Defined.

(** ** Entries that begin with an operator *)







(** ** Failures of the external lookups *)

Lemma append_advisories_prefix (vulns vulnerabilities : list value) :
  exists recs,
    fst (append_advisories vulns vulnerabilities) = vulnerabilities ++ recs /\
    mapped_prefix vulns recs.
Proof.
  revert vulnerabilities. induction vulns as [|a vulns IH]; intros acc.
  - exists []. split; [simpl; now rewrite app_nil_r|].
    exists [], []. repeat split. constructor.
  - simpl. destruct (advisory_record a) as [r|e] eqn:E.
    + destruct (IH (acc ++ [r])) as (recs & Hrecs & good & bad & -> & Hgood & Hbad).
      exists (r :: recs). split; [now rewrite Hrecs, <- app_assoc|].
      exists (a :: good), bad. repeat split; [now constructor|assumption].
    + exists []. split; [simpl; now rewrite app_nil_r|].
      exists [], (a :: vulns). repeat split; [constructor|now exists e].
Qed.




(** ** Vulnerability Client: the advisory records *)

(** A 200 answer with one advisory, an object whose [severity] is the
    string ["HIGH"]: the mapping of the advisory raises, and the client
    returns no record for it. So C8 does not hold of every advisory. *)
Lemma advisory_severity_counterexample :
  ~ (forall (net : list request -> request -> http_outcome)
            (package_name ecosystem : str) (log : list request)
            (fields : list (str * value)),
        net log (POST osv_url (osv_payload package_name ecosystem)) =
          ok200 (VDict [(lit "vulns", VList [VDict fields])]) ->
        exists r,
          advisory_record (VDict fields) = Ok r /\
          fst (check_vulnerabilities_osv net package_name ecosystem log) = Ok [r]).
Proof.
  intros H.
  destruct (H (scripted [ok200 (VDict [(lit "vulns",
                                        VList [VDict [(lit "id", VStr (lit "GHSA-1"));
                                                      (lit "severity", VStr (lit "HIGH"))]])])])
              (lit "flask") (lit "python") []
              [(lit "id", VStr (lit "GHSA-1")); (lit "severity", VStr (lit "HIGH"))]
              eq_refl) as (r & Hr & _).
  vm_compute in Hr. discriminate.
Qed.

(** C8, amended. An advisory that is an object whose severity is absent, a
    false value ([null], the empty list), or a list whose first entry is an
    object, is mapped to a record with the fields id, summary, severity and
    published. The summary is the advisory's, or the literal "No summary
    available" when the advisory has none. The severity is the type of the
    first entry of the advisory's severity list, or the literal "UNKNOWN"
    when the advisory has no severity, when the severity is a false value,
    or when the first entry has no type. When the body of a 200 answer is
    an object whose [vulns] is a list of such advisories, the client
    returns their records, in order. An advisory whose severity is a
    non-empty string is not mapped: its mapping raises. *)
Theorem advisory_record_defaults
    (net : list request -> request -> http_outcome)
    (package_name ecosystem : str) (log : list request)
    (fields answer : list (str * value)) (vulns : list value) (c : char) (s : str) :
  (severity_well_formed fields ->
   advisory_record (VDict fields) =
   Ok (VDict
         [(lit "id",
           match dict_get (lit "id") fields with Some v => v | None => VNone end);
          (lit "summary",
           match dict_get (lit "summary") fields with
           | Some v => v
           | None => VStr (lit "No summary available")
           end);
          (lit "severity",
           match dict_get (lit "severity") fields with
           | Some (VList (VDict entry :: _)) =>
               match dict_get (lit "type") entry with
               | Some t => t
               | None => VStr (lit "UNKNOWN")
               end
           | _ => VStr (lit "UNKNOWN")
           end);
          (lit "published",
           match dict_get (lit "published") fields with
           | Some v => v
           | None => VStr []
           end)]))
  /\ (net log (POST osv_url (osv_payload package_name ecosystem)) =
        Returns (mkResponse 200 (Some (VDict answer))) ->
      dict_get (lit "vulns") answer = Some (VList vulns) ->
      Forall well_formed_advisory vulns ->
      exists recs,
        check_vulnerabilities_osv net package_name ecosystem log =
        (Ok recs, log ++ [POST osv_url (osv_payload package_name ecosystem)]) /\
        Forall2 (fun a r => advisory_record a = Ok r) vulns recs)
  /\ (dict_get (lit "severity") fields = Some (VStr (c :: s)) ->
      advisory_record (VDict fields) = Raise AttributeError).
Proof.
  assert (Hrec : forall f, severity_well_formed f ->
                           exists r, advisory_record (VDict f) = Ok r).
  { intros f. unfold severity_well_formed, advisory_record, get.
    cbn [bind Monad_result ret].
    destruct (dict_get (lit "id") f), (dict_get (lit "summary") f),
             (dict_get (lit "published") f),
             (dict_get (lit "severity") f) as [[| | | | |[|[| | | | | |entry] ?]|]|];
      cbn [get bind Monad_result ret]; intros H; try rewrite H;
      cbn [truthy getitem0 get bind Monad_result ret];
      try destruct (dict_get (lit "type") entry); eauto. }
  split; [|split].
  - unfold severity_well_formed, advisory_record, get. cbn [bind Monad_result ret].
    destruct (dict_get (lit "id") fields), (dict_get (lit "summary") fields),
             (dict_get (lit "published") fields),
             (dict_get (lit "severity") fields) as [[| | | | |[|[| | | | | |entry] ?]|]|];
      cbn [get bind Monad_result ret]; intros H; try rewrite H;
      cbn [truthy getitem0 get bind Monad_result ret];
      try destruct (dict_get (lit "type") entry); reflexivity.
  - intros Hnet Hvulns Hwf.
    assert (Hh : handled osv_vulns
                   (net log (POST osv_url (osv_payload package_name ecosystem))) =
                 Some vulns).
    { rewrite Hnet. unfold handled. cbn [status_code body].
      change (200 =? 200) with true. cbv beta iota.
      unfold osv_vulns, get. rewrite Hvulns. reflexivity. }
    rewrite check_vulnerabilities_osv_run, Hh.
    destruct (append_advisories_prefix vulns [])
      as (recs & -> & good & bad & -> & Hgood & Hbad).
    exists recs. split; [reflexivity|].
    destruct bad as [|a bad]; [now rewrite app_nil_r|].
    destruct Hbad as (e & He).
    apply Forall_app in Hwf as [_ Hwf]. apply Forall_inv in Hwf as (f & -> & Hf).
    destruct (Hrec f Hf) as (r & Hr). congruence.
  - intros Hsev. unfold advisory_record, get. cbn [bind Monad_result ret].
    rewrite Hsev.
    destruct (dict_get (lit "id") fields), (dict_get (lit "summary") fields);
      reflexivity.
Qed.

Lemma advisory_record_defaults_witness :
  let advisory := [(lit "id", VStr (lit "GHSA-1"));
                   (lit "severity", VList [VDict [(lit "type", VStr (lit "CVSS_V3"))]])] in
  let record := VDict [(lit "id", VStr (lit "GHSA-1"));
                       (lit "summary", VStr (lit "No summary available"));
                       (lit "severity", VStr (lit "CVSS_V3"));
                       (lit "published", VStr [])] in
  advisory_record (VDict advisory) = Ok record
  /\ (exists recs,
        check_vulnerabilities_osv
          (scripted [ok200 (VDict [(lit "vulns", VList [VDict advisory; VDict []])])])
          (lit "flask") (lit "python") [] =
        (Ok recs, [] ++ [POST osv_url (osv_payload (lit "flask") (lit "python"))]) /\
        Forall2 (fun a r => advisory_record a = Ok r) [VDict advisory; VDict []] recs)
  /\ advisory_record (VDict [(lit "severity", VStr (lit "HIGH"))]) = Raise AttributeError.
Proof.
  intros advisory record.
  split; [|split].
  - apply (advisory_record_defaults (scripted []) (lit "flask") (lit "python") []
             advisory [] [] 0%N []).
    exact I.
  - apply (advisory_record_defaults
             (scripted [ok200 (VDict [(lit "vulns", VList [VDict advisory; VDict []])])])
             (lit "flask") (lit "python") [] []
             [(lit "vulns", VList [VDict advisory; VDict []])]
             [VDict advisory; VDict []] 0%N []).
    + reflexivity.
    + reflexivity.
    + repeat constructor; eexists; (split; [reflexivity|exact I]).
  - apply (advisory_record_defaults (scripted []) (lit "flask") (lit "python") []
             [(lit "severity", VStr (lit "HIGH"))] [] [] 72%N (lit "IGH")).
    reflexivity.
Defined.

(** ** Dependency Parser: name to constraint maps *)



Lemma keys_dict_set {V} (k : str) (v : V) (d : list (str * V)) :
  map fst (dict_set k v d) =
  if existsb (str_eqb k) (map fst d) then map fst d else map fst d ++ [k].
Proof.
  induction d as [|[k0 v0] d IH]; simpl; [reflexivity|].
  destruct (str_eqb k k0); simpl; [reflexivity|].
  rewrite IH. now destruct (existsb (str_eqb k) (map fst d)).
Qed.




(** A [null] for [dependencies] is not a mapping: line 301 raises. *)
Lemma npm_null_dependencies_raises
    (net : list request -> request -> http_outcome)
    (dev : option (list (str * str))) (log : list request) :
  analyze_npm_dependencies net (mkNpmDependenciesRequest None dev) log =
  (Raise TypeError, log).
Proof. reflexivity. Qed.




(** ** End-to-end examples *)

(** ["flask==2.0.1"], a registry whose latest version is 2.0.1, and no
    advisory: not outdated, score 100, the healthy message. *)
Example flask_up_to_date :
  let net :=
    scripted [ok200 (VDict [(lit "info", VDict [(lit "version", VStr (lit "2.0.1"))])]);
              ok200 (VDict [])] in
  exists resp log',
    analyze_python_dependencies net (mkPythonDependenciesRequest [lit "flask==2.0.1"]) []
      = (Ok resp, log') /\
    map is_outdated (packages resp) = [VBool false] /\
    map health_score (packages resp) = [100] /\
    map recommendation (packages resp) = [msg_healthy] /\
    overall_health_score resp = 100.
Proof. eexists _, _. split; [vm_compute; reflexivity|]. repeat split. Qed.

(** [{"left-pad": "^1.0.0"}] with a registry that marks the package
    deprecated: score 70 and the deprecation message. *)
Example left_pad_deprecated :
  let net :=
    scripted [ok200 (VDict [(lit "dist-tags", VDict [(lit "latest", VStr (lit "1.0.0"))]);
                            (lit "deprecated", VBool true)]);
              ok200 (VDict [])] in
  exists resp log',
    analyze_npm_dependencies net
      (mkNpmDependenciesRequest (Some [(lit "left-pad", lit "^1.0.0")]) None) []
      = (Ok resp, log') /\
    map current_version (packages resp) = [Some (lit "1.0.0")] /\
    map health_score (packages resp) = [70] /\
    map recommendation (packages resp) = [msg_deprecated].
Proof. eexists _, _. split; [vm_compute; reflexivity|]. repeat split. Qed.

(** * Further properties of the code *)

(** ** Health Evaluator *)

(** X1. For a vulnerability count, which is never negative, the sum of the
    penalties is at most 100: the score lies between 0 and 100 and the
    final [max(score, 0)] never changes it. The score is 100 only without
    any penalty, and 0 only for an outdated, deprecated package with four
    vulnerabilities or more. *)
Theorem health_score_range
    (is_outdated : bool) (vulnerability_count : nat) (is_deprecated : bool) :
  let n := Z.of_nat vulnerability_count in
  let score := calculate_health_score is_outdated n is_deprecated in
  0 <= score <= 100
  /\ score = 100 - (if is_outdated then 20 else 0) - Z.min (n * 15) 50
                 - (if is_deprecated then 30 else 0)
  /\ (score = 100 <-> is_outdated = false /\ n = 0 /\ is_deprecated = false)
  /\ (score = 0 <-> is_outdated = true /\ 4 <= n /\ is_deprecated = true).
Proof.
  intros n score. subst score. unfold calculate_health_score.
  assert (Hn : 0 <= n) by (subst n; lia).
  destruct (Z.ltb_spec 0 n), is_outdated, is_deprecated;
    repeat split; intros; try lia; try discriminate;
    repeat match goal with H : _ /\ _ |- _ => destruct H end;
    try discriminate; lia.
Qed.

(** X2. Each of the first four vulnerabilities strictly lowers the score;
    from four on, further vulnerabilities leave it unchanged. *)
Theorem vulnerability_penalty_saturates
    (is_outdated : bool) (vulnerability_count : nat) (is_deprecated : bool) :
  let n := Z.of_nat vulnerability_count in
  (n < 4 ->
   calculate_health_score is_outdated (n + 1) is_deprecated
   < calculate_health_score is_outdated n is_deprecated)
  /\ (4 <= n ->
      calculate_health_score is_outdated n is_deprecated =
      calculate_health_score is_outdated 4 is_deprecated).
Proof.
  intros n. assert (Hn : 0 <= n) by (subst n; lia).
  unfold calculate_health_score. change (0 <? 4) with true.
  destruct (Z.ltb_spec 0 n), (Z.ltb_spec 0 (n + 1)), is_outdated, is_deprecated;
    split; intros; lia.
Qed.

Lemma vulnerability_penalty_saturates_witness :
  calculate_health_score true (Z.of_nat 2 + 1) false
    < calculate_health_score true (Z.of_nat 2) false
  /\ calculate_health_score true (Z.of_nat 9) false =
     calculate_health_score true 4 false.
Proof.
  destruct (vulnerability_penalty_saturates true 2 false) as [H1 _].
  destruct (vulnerability_penalty_saturates true 9 false) as [_ H2].
  split; [apply H1|apply H2]; simpl; lia.
Defined.

(** X3. Evaluated on the same flags and count, the recommendation is the
    healthy message exactly when the score is 100, and the deprecation
    message exactly when the package is deprecated. *)
Theorem healthy_message_iff_perfect_score
    (is_outdated : bool) (vulnerability_count : nat) (is_deprecated : bool) :
  let n := Z.of_nat vulnerability_count in
  let score := calculate_health_score is_outdated n is_deprecated in
  (get_recommendation score is_outdated n is_deprecated = msg_healthy <->
   score = 100)
  /\ (get_recommendation score is_outdated n is_deprecated = msg_deprecated <->
      is_deprecated = true).
Proof.
  intros n score.
  assert (Hn : 0 <= n) by (subst n; lia).
  assert (H100 : score = 100 <->
                 is_outdated = false /\ n = 0 /\ is_deprecated = false).
  { subst score. unfold calculate_health_score.
    destruct (Z.ltb_spec 0 n), is_outdated, is_deprecated;
      split; intros; try lia; try discriminate;
      repeat match goal with H : _ /\ _ |- _ => destruct H end;
      try discriminate; try lia; auto. }
  rewrite H100.
  unfold get_recommendation, msg_healthy, msg_deprecated, msg_vulnerable, msg_outdated.
  destruct is_deprecated, (Z.ltb_spec 0 n), is_outdated; cbn [app];
    split; split; try (intros [= ]); try (intros (? & ? & ?));
    try discriminate; try lia; auto.
Qed.

(** ** Constraint strings of Endpoint A *)

Lemma lstrip_by_fixed (p : char -> bool) (s : str) :
  (forall c t, s = c :: t -> p c = false) -> lstrip_by p s = s.
Proof.
  destruct s as [|c t]; [reflexivity|]. intros H. simpl.
  now rewrite (H c t eq_refl).
Qed.

Lemma strip_fixed (s : str) :
  (forall c t, s = c :: t -> isspace c = false) ->
  (forall t c, s = t ++ [c] -> isspace c = false) ->
  strip s = s.
Proof.
  intros Hhead Hlast. unfold strip, rstrip_by.
  rewrite (lstrip_by_fixed isspace s Hhead).
  rewrite lstrip_by_fixed; [apply rev_involutive|].
  intros c t E. apply (Hlast (rev t) c).
  rewrite <- (rev_involutive s), E. reflexivity.
Qed.

Lemma trimmed_fixed (s t : str) : trimmed s t -> strip t = t.
Proof.
  intros (l & r & _ & _ & _ & Hhead & Hlast). now apply strip_fixed.
Qed.

Lemma strip_idempotent (s : str) : strip (strip s) = strip s.
Proof. apply (trimmed_fixed s), strip_trimmed. Qed.

Lemma strip_head (s : str) (c : char) (t : str) :
  strip s = c :: t -> isspace c = false.
Proof.
  destruct (strip_trimmed s) as (l & r & _ & _ & _ & Hhead & _). apply Hhead.
Qed.

Lemma strip_last (s t : str) (c : char) :
  strip s = t ++ [c] -> isspace c = false.
Proof.
  destruct (strip_trimmed s) as (l & r & _ & _ & _ & _ & Hlast). apply Hlast.
Qed.

Lemma split_unique (a b c d : str) (sep : str) (x : char) :
  a ++ sep ++ b = c ++ sep ++ d ->
  sep = x :: tl sep -> ~ In x a -> (List.length c <= List.length a)%nat ->
  c = a.
Proof.
  intros E Hsep Hx. revert c E.
  induction a as [|y a IH]; intros [|z c] E Hlen; simpl in *; try lia.
  - reflexivity.
  - exfalso. rewrite Hsep in E. injection E as E _.
    apply Hx. now left.
  - injection E as -> E. f_equal. apply IH; [tauto|assumption|lia].
Qed.

Lemma parse_pinned_entry (name version : str) (rest : list str)
    (collected : list PackageDependency) :
  name <> [] ->
  strip name = name ->
  strip version = version ->
  ~ In 61%N name ->
  startswith (lit "#") name = false ->
  parse_packages ((name ++ lit "==" ++ version) :: rest) collected =
  parse_packages rest (collected ++ [mkPackageDependency name (Some version)]).
Proof.
  intros Hne Hname Hversion Heq Hhash.
  set (s := name ++ lit "==" ++ version).
  assert (Hs : strip s = s).
  { apply strip_fixed.
    - intros c t E. destruct name as [|c' name']; [congruence|].
      injection E as <- _. now apply (strip_head (c' :: name') c' name').
    - intros t c E. destruct version as [|v0 version'] using rev_ind.
      + unfold s in E. rewrite app_nil_r in E.
        change (lit "==") with ([61%N] ++ [61%N]) in E.
        rewrite !app_assoc in E. apply app_inj_tail in E as [_ <-]. reflexivity.
      + unfold s in E. rewrite !app_assoc in E. apply app_inj_tail in E as [_ <-].
        now apply (strip_last (version' ++ [v0]) version' v0). }
  assert (Hfind : find (lit "==") s = Some (List.length name)).
  { destruct (find (lit "==") s) as [i|] eqn:F.
    - destruct (find_Some _ _ _ F) as [Hsplit Hmin].
      specialize (Hmin name version eq_refl).
      assert (E : firstn i s = name).
      { apply (split_unique name version _ (skipn (i + List.length (lit "==")) s)
                 (lit "==") 61%N); try assumption; try reflexivity; exact Hsplit. }
      apply (f_equal (@List.length _)) in E. rewrite length_firstn in E.
      assert (List.length s = List.length name + 2 + List.length version)%nat
        by (unfold s; rewrite !length_app; simpl; lia).
      f_equal. lia.
    - apply find_None in F. exfalso. apply F. now exists name, version. }
  assert (Hkept : strip s <> []).
  { rewrite Hs. unfold s. destruct name; [congruence|simpl; discriminate]. }
  assert (Hc : startswith (lit "#") (strip s) = false).
  { rewrite Hs. unfold s. destruct name as [|c name']; [congruence|exact Hhash]. }
  rewrite (not_skipped s Hkept Hc), Hs.
  change operators with (lit "==" :: tl operators).
  assert (Hop : lit "==" <> []) by discriminate.
  rewrite (scan_operators_hit (lit "==") (tl operators) s _ collected Hop Hfind).
  cbn [bind Monad_result].
  unfold s. rewrite firstn_app, firstn_all, Nat.sub_diag. cbn [firstn].
  rewrite app_nil_r, Hname.
  rewrite (app_assoc name), skipn_app, length_app.
  replace (skipn _ (name ++ lit "==")) with (@nil char)
    by (symmetry; apply skipn_all2; rewrite length_app; lia).
  rewrite Nat.sub_diag. cbn [skipn app]. now rewrite Hversion.
Qed.

(** X4. A pinned requirement round-trips through the parser of Endpoint A,
    wherever it stands in the batch: [name==version] is parsed back to that
    name and that version, between what the entries before it and the
    entries after it give, when the name is non-empty, has no [=] and does
    not start with [#], and neither has surrounding whitespace. *)
Theorem pinned_requirement_round_trip (name version : str) (before after : list str) :
  name <> [] ->
  strip name = name ->
  strip version = version ->
  ~ In 61%N name ->
  startswith (lit "#") name = false ->
  exists pre post,
    parse_packages before [] = Ok pre /\
    parse_packages after [] = Ok post /\
    parse_packages (before ++ (name ++ lit "==" ++ version) :: after) [] =
    Ok (pre ++ mkPackageDependency name (Some version) :: post).
Proof.
  intros Hne Hname Hversion Heq Hhash.
  destruct (parse_packages_appends before) as (pre & Hpre).
  destruct (parse_packages_appends after) as (post & Hpost).
  exists pre, post. split; [apply (Hpre [])|]. split; [apply (Hpost [])|].
  rewrite parse_packages_app, Hpre. cbn [bind Monad_result app].
  rewrite parse_pinned_entry by assumption.
  now rewrite Hpost, <- app_assoc.
Qed.

Lemma pinned_requirement_round_trip_witness :
  exists pre post,
    parse_packages [lit "# web"] [] = Ok pre /\
    parse_packages [lit "numpy"] [] = Ok post /\
    parse_packages ([lit "# web"] ++ (lit "flask" ++ lit "==" ++ lit "2.0.1")
                      :: [lit "numpy"]) [] =
    Ok (pre ++ mkPackageDependency (lit "flask") (Some (lit "2.0.1")) :: post).
Proof.
  apply (pinned_requirement_round_trip (lit "flask") (lit "2.0.1")
           [lit "# web"] [lit "numpy"]).
  - discriminate.
  - reflexivity.
  - reflexivity.
  - simpl. intuition discriminate.
  - reflexivity.
Defined.

Lemma parse_packages_origin (entries : list str) :
  forall collected out,
    parse_packages entries collected = Ok out ->
    forall dep, In dep out ->
      In dep collected \/
      exists entry, In entry entries /\ strip entry <> [] /\
                    entry_spec operators (strip entry) dep.
Proof.
  induction entries as [|entry rest IH]; intros collected out E dep Hin.
  - injection E as <-. now left.
  - destruct (skipped_dec entry) as [Hs|[Hne Hc]].
    + rewrite parse_packages_skip in E by assumption.
      destruct (IH _ _ E dep Hin) as [H|(e & He & H)]; [now left|].
      right. exists e. split; [now right|assumption].
    + rewrite not_skipped in E by assumption.
      destruct (scan_operators_spec operators (strip entry) operators_nonempty)
        as (d & Hd & Hspec).
      rewrite Hd in E. cbn [bind Monad_result] in E.
      destruct (IH _ _ E dep Hin) as [H|(e & He & H)].
      * apply in_app_or in H as [H|[<-|[]]]; [now left|].
        right. exists entry. split; [now left|]. now split.
      * right. exists e. split; [now right|assumption].
Qed.

(** X5. Every dependency the parser of Endpoint A produces has a name and a
    version without surrounding whitespace. A dependency without version
    has a non-empty name in which none of the six operators occurs; so an
    empty name only comes with a version. *)
Theorem parsed_dependencies_are_trimmed
    (entries : list str) (parsed : list PackageDependency)
    (dep : PackageDependency) :
  parse_packages entries [] = Ok parsed ->
  In dep parsed ->
  strip (pkg_name dep) = pkg_name dep
  /\ (forall version, pkg_version dep = Some version -> strip version = version)
  /\ (pkg_version dep = None ->
      pkg_name dep <> [] /\
      forall op, In op operators -> ~ occurs op (pkg_name dep)).
Proof.
  intros E Hin.
  destruct (parse_packages_origin entries [] parsed E dep Hin)
    as [[]|(entry & _ & Hne & Hspec)].
  destruct Hspec as [ops1 op ops2 pre post name version _ _ _ Hname Hversion|Hnone];
    cbn [pkg_name pkg_version].
  - split; [now apply (trimmed_fixed pre)|]. split; [|discriminate].
    intros v [= <-]. now apply (trimmed_fixed post).
  - split; [apply strip_idempotent|]. split; [discriminate|].
    intros _. split; assumption.
Qed.

Lemma parsed_dependencies_are_trimmed_witness :
  strip (lit "requests") = lit "requests"
  /\ (forall version, Some (lit "2.25.0") = Some version -> strip version = version)
  /\ (Some (lit "2.25.0") = None ->
      lit "requests" <> [] /\
      forall op, In op operators -> ~ occurs op (lit "requests")).
Proof.
  apply (parsed_dependencies_are_trimmed [lit "# pinned"; lit " requests >= 2.25.0 "]
           [mkPackageDependency (lit "requests") (Some (lit "2.25.0"))]
           (mkPackageDependency (lit "requests") (Some (lit "2.25.0")))).
  - vm_compute. reflexivity.
  - now left.
Defined.






(** ** Registry clients *)



Lemma str_eqb_false_iff (a b : str) : negb (str_eqb a b) = false <-> a = b.
Proof.
  rewrite negb_false_iff. apply str_eqb_eq.
Qed.

(** X8. On a 200 answer whose record has a version under [info] (and whose
    [releases], when present, is an object), the PyPI client returns that
    version as the latest one and the keys of [releases], and reports a
    package with a non-empty declared version as outdated unless the
    registry's version is exactly the declared string; a version that is
    not a string, [null] included, counts as different. *)
Theorem pypi_outdated_unless_versions_equal
    (net : list request -> request -> http_outcome)
    (package_name current : str) (log : list request)
    (fields info : list (str * value)) (lv : value) :
  net log (GET (pypi_url package_name)) =
    Returns (mkResponse 200 (Some (VDict fields))) ->
  dict_get (lit "info") fields = Some (VDict info) ->
  dict_get (lit "version") info = Some lv ->
  (dict_get (lit "releases") fields = None \/
   exists rel, dict_get (lit "releases") fields = Some (VDict rel)) ->
  current <> [] ->
  exists b,
    check_pypi_package net package_name (Some current) log =
    (Ok (VDict [(lit "latest_version", lv); (lit "is_outdated", VBool b);
                (lit "releases", VList (pypi_releases fields))]),
     log ++ [GET (pypi_url package_name)]) /\
    (b = false <-> lv = VStr current).
Proof.
  intros Hnet Hinfo Hver Hrel Hcur.
  rewrite check_pypi_package_run, Hnet. unfold handled. cbn [status_code body].
  change (200 =? 200) with true. cbv beta iota.
  unfold pypi_result, getitem, get, pypi_releases.
  rewrite Hinfo. cbn [bind Monad_result ret]. rewrite Hver.
  cbn [bind Monad_result ret].
  assert (Ht : truthy_opt (Some current) = true) by (destruct current; [congruence|reflexivity]).
  rewrite Ht.
  exists (opt_ne (Some current) lv). split.
  - destruct Hrel as [->|[rel ->]]; reflexivity.
  - unfold opt_ne. destruct lv; try (split; [discriminate|discriminate]).
    rewrite str_eqb_false_iff. split; [now intros ->|now intros [= ->]].
Qed.

Lemma pypi_outdated_unless_versions_equal_witness :
  exists b,
    check_pypi_package
      (scripted [ok200 (VDict [(lit "info", VDict [(lit "version", VStr (lit "3.0.0"))])])])
      (lit "flask") (Some (lit "2.0.1")) [] =
    (Ok (VDict [(lit "latest_version", VStr (lit "3.0.0"));
                (lit "is_outdated", VBool b);
                (lit "releases",
                 VList (pypi_releases
                          [(lit "info", VDict [(lit "version", VStr (lit "3.0.0"))])]))]),
     [] ++ [GET (pypi_url (lit "flask"))]) /\
    (b = false <-> VStr (lit "3.0.0") = VStr (lit "2.0.1")).
Proof.
  apply (pypi_outdated_unless_versions_equal
           (scripted [ok200 (VDict [(lit "info", VDict [(lit "version", VStr (lit "3.0.0"))])])])
           (lit "flask") (lit "2.0.1") []
           [(lit "info", VDict [(lit "version", VStr (lit "3.0.0"))])]
           [(lit "version", VStr (lit "3.0.0"))] (VStr (lit "3.0.0"))).
  - reflexivity.
  - reflexivity.
  - reflexivity.
  - now left.
  - discriminate.
Defined.

(** X9. On a 200 answer that is an object (whose [dist-tags], when present,
    is an object), the npm client returns the [latest] tag, or nothing when
    there is none, and passes the [deprecated] field through, false when
    absent. A package with a non-empty declared version is reported
    outdated exactly when there is a true-valued latest tag other than the
    declared string: unlike the PyPI client, a missing or [null] latest
    version never makes a package outdated. *)
Theorem npm_outdated_iff_latest_differs
    (net : list request -> request -> http_outcome)
    (package_name current : str) (log : list request)
    (fields : list (str * value)) :
  net log (GET (npm_url package_name)) =
    Returns (mkResponse 200 (Some (VDict fields))) ->
  (dict_get (lit "dist-tags") fields = None \/
   exists tags, dict_get (lit "dist-tags") fields = Some (VDict tags)) ->
  current <> [] ->
  exists b,
    check_npm_package net package_name (Some current) log =
    (Ok (VDict [(lit "latest_version", npm_latest fields);
                (lit "is_outdated", VBool b);
                (lit "deprecated", npm_deprecated fields)]),
     log ++ [GET (npm_url package_name)]) /\
    (b = true <->
     truthy (npm_latest fields) = true /\ npm_latest fields <> VStr current).
Proof.
  intros Hnet Htags Hcur.
  rewrite check_npm_package_run, Hnet. unfold handled. cbn [status_code body].
  change (200 =? 200) with true. cbv beta iota.
  assert (Ht : truthy_opt (Some current) = true) by (destruct current; [congruence|reflexivity]).
  assert (E : npm_result (Some current) (VDict fields) =
              Ok (VDict [(lit "latest_version", npm_latest fields);
                         (lit "is_outdated",
                          VBool (truthy (npm_latest fields)
                                 && opt_ne (Some current) (npm_latest fields)));
                         (lit "deprecated", npm_deprecated fields)])).
  { unfold npm_result, get, npm_latest, npm_deprecated. rewrite Ht.
    destruct Htags as [->|[tags ->]]; cbn [bind Monad_result ret dict_get andb];
      [|destruct (dict_get (lit "latest") tags) as [lv|]];
      destruct (dict_get (lit "deprecated") fields); cbn [truthy andb];
      try reflexivity; destruct (truthy lv); reflexivity. }
  rewrite E. eexists. split; [reflexivity|].
  rewrite andb_true_iff. unfold opt_ne.
  destruct (npm_latest fields) as [| | | |s| |];
    try (split; [intros [? _]; split; [assumption|discriminate]|intros [? _]; now split]).
  split.
  - intros [H1 H2]. split; [assumption|]. intros [= ->].
    now rewrite str_eqb_refl in H2.
  - intros [H1 H2]. split; [assumption|].
    apply negb_true_iff, str_eqb_neq. congruence.
Qed.

Lemma npm_outdated_iff_latest_differs_witness :
  exists b,
    check_npm_package (scripted [ok200 (VDict [(lit "deprecated", VStr (lit "use x"))])])
      (lit "left-pad") (Some (lit "1.0.0")) [] =
    (Ok (VDict [(lit "latest_version",
                 npm_latest [(lit "deprecated", VStr (lit "use x"))]);
                (lit "is_outdated", VBool b);
                (lit "deprecated",
                 npm_deprecated [(lit "deprecated", VStr (lit "use x"))])]),
     [] ++ [GET (npm_url (lit "left-pad"))]) /\
    (b = true <->
     truthy (npm_latest [(lit "deprecated", VStr (lit "use x"))]) = true /\
     npm_latest [(lit "deprecated", VStr (lit "use x"))] <> VStr (lit "1.0.0")).
Proof.
  apply (npm_outdated_iff_latest_differs
           (scripted [ok200 (VDict [(lit "deprecated", VStr (lit "use x"))])])
           (lit "left-pad") (lit "1.0.0") []
           [(lit "deprecated", VStr (lit "use x"))]).
  - reflexivity.
  - now left.
  - discriminate.
Defined.

(** ** A registry record with an unusable [releases] *)



(** ** Vulnerability client *)

(** X11. Mapping an advisory succeeds exactly when the advisory is an
    object whose [severity] is absent, false-valued, or a list whose first
    entry is an object; in every other case it raises, which ends the loop
    of the client. When it succeeds the record has exactly the fields id,
    summary, severity and published, in this order. *)
Theorem advisory_record_succeeds_iff (a : value) :
  ((exists r, advisory_record a = Ok r) <-> well_formed_advisory a)
  /\ (forall r, advisory_record a = Ok r ->
      exists id summary severity published,
        r = VDict [(lit "id", id); (lit "summary", summary);
                   (lit "severity", severity); (lit "published", published)]).
Proof.
  split.
  - split.
    + intros (r & E). destruct a as [| | | | | |fields]; try discriminate.
      exists fields. split; [reflexivity|].
      revert E. unfold severity_well_formed, advisory_record, get.
      cbn [bind Monad_result ret].
      destruct (dict_get (lit "id") fields), (dict_get (lit "summary") fields),
               (dict_get (lit "published") fields),
               (dict_get (lit "severity") fields)
        as [[|b|n|q|[|c s]|[|[| | | | | |entry] l]|[|kv d]]|];
        cbn [truthy getitem0 get bind Monad_result ret];
        try discriminate; try reflexivity; try exact (fun _ => I);
        try (destruct b; [discriminate|reflexivity]);
        try (destruct (negb (n =? 0)); [discriminate|reflexivity]);
        try (destruct (negb (Qeq_bool q 0)); [discriminate|reflexivity]).
    + intros (fields & -> & Hwf). revert Hwf.
      unfold severity_well_formed, advisory_record, get.
      cbn [bind Monad_result ret].
      destruct (dict_get (lit "id") fields), (dict_get (lit "summary") fields),
               (dict_get (lit "published") fields),
               (dict_get (lit "severity") fields)
        as [[| | | | |[|[| | | | | |entry] ?]|]|];
        cbn [get bind Monad_result ret]; intros H; try rewrite H;
        cbn [truthy getitem0 get bind Monad_result ret];
        try destruct (dict_get (lit "type") entry); eauto.
  - intros r. unfold advisory_record. cbn [bind Monad_result ret].
    destruct (get a (lit "id") VNone); [|discriminate].
    destruct (get a (lit "summary") _); [|discriminate].
    destruct (get a (lit "severity") VNone) as [cond|]; [|discriminate].
    match goal with
    | |- context [match ?sev with Ok _ => _ | Raise _ => _ end] =>
        destruct sev; [|discriminate]
    end.
    destruct (get a (lit "published") _); [|discriminate].
    intros [= <-]. eauto 6.
Qed.



Lemma advisory_record_succeeds_iff_witness :
  exists id summary severity published,
    VDict [(lit "id", VStr (lit "GHSA-1"));
           (lit "summary", VStr (lit "No summary available"));
           (lit "severity", VStr (lit "UNKNOWN")); (lit "published", VStr [])] =
    VDict [(lit "id", id); (lit "summary", summary);
           (lit "severity", severity); (lit "published", published)].
Proof.
  apply (proj2 (advisory_record_succeeds_iff (VDict [(lit "id", VStr (lit "GHSA-1"))]))).
  reflexivity.
Defined.

(** ** Aggregation: counters and overall score *)

Lemma analyze_python_inv (net : list request -> request -> http_outcome)
    (batch : PythonDependenciesRequest) (log log' : list request)
    (resp : OverallHealthResponse) :
  analyze_python_dependencies net batch log = (Ok resp, log') ->
  exists parsed,
    parse_packages (req_packages batch) [] = Ok parsed /\
    aggregate (python_body net) parsed log = (Ok resp, log').
Proof.
  unfold analyze_python_dependencies, lift. cbn [bind Monad_M].
  destruct (parse_packages (req_packages batch) []) as [parsed|]; [|discriminate].
  destruct parsed as [|p parsed']; [discriminate|]. eauto.
Qed.

Lemma analyze_npm_inv (net : list request -> request -> http_outcome)
    (batch : NpmDependenciesRequest) (log log' : list request)
    (resp : OverallHealthResponse) :
  analyze_npm_dependencies net batch log = (Ok resp, log') ->
  exists merged,
    all_deps batch = Ok merged /\
    aggregate (npm_body net) (npm_packages merged) log = (Ok resp, log').
Proof.
  unfold analyze_npm_dependencies, lift. cbn [bind Monad_M].
  destruct (all_deps batch) as [merged|]; [|discriminate].
  destruct (npm_packages merged) as [|p pkgs] eqn:E; [discriminate|].
  intros H. exists merged. split; [reflexivity|]. now rewrite E.
Qed.

(** The facts of a response of Endpoint A, of Endpoint B. *)
Lemma analyze_python_facts (net : list request -> request -> http_outcome)
    (batch : PythonDependenciesRequest) (log log' : list request)
    (resp : OverallHealthResponse) :
  analyze_python_dependencies net batch log = (Ok resp, log') ->
  exists parsed,
    Forall2 python_fact parsed (packages resp) /\
    total_packages resp = len (packages resp) /\
    outdated_count resp = count (fun r => truthy (is_outdated r)) (packages resp) /\
    vulnerable_count resp = count has_vulnerabilities (packages resp) /\
    deprecated_count resp = count (fun r => truthy (is_deprecated r)) (packages resp) /\
    floor_average (map health_score (packages resp)) (overall_health_score resp).
Proof.
  intros E. apply analyze_python_inv in E as (parsed & _ & E).
  apply aggregate_python_inv in E as (_ & Hall & Ht & Ho & Hv & Hd & _ & Hf).
  exists parsed. repeat (split; [assumption|]). split; [|exact Hf].
  rewrite Hd. symmetry. apply count_none.
  eapply Forall2_right; [|exact Hall]. now intros a b (_ & -> & _).
Qed.

Lemma analyze_npm_facts (net : list request -> request -> http_outcome)
    (batch : NpmDependenciesRequest) (log log' : list request)
    (resp : OverallHealthResponse) :
  analyze_npm_dependencies net batch log = (Ok resp, log') ->
  exists pkgs rds,
    packages resp = map fst rds /\
    Forall2 (fun pkg rd => npm_assessed pkg (fst rd) (snd rd)) pkgs rds /\
    total_packages resp = len (packages resp) /\
    outdated_count resp = count (fun r => truthy (is_outdated r)) (packages resp) /\
    vulnerable_count resp = count has_vulnerabilities (packages resp) /\
    deprecated_count resp = len (filter snd rds) /\
    floor_average (map health_score (packages resp)) (overall_health_score resp).
Proof.
  intros E. apply analyze_npm_inv in E as (merged & _ & E).
  apply aggregate_npm_inv in E as (rds & _ & Hp & Hall & Ht & Ho & Hv & Hd & _ & Hf).
  exists (npm_packages merged), rds. auto 10.
Qed.

(** The packages counted as deprecated include those reported deprecated. *)
Lemma deprecated_flags_bounds (rds : list (PackageHealthResponse * bool)) :
  Forall (fun rd => is_deprecated (fst rd) = VBool true -> snd rd = true) rds ->
  count (fun r => match is_deprecated r with VBool true => true | _ => false end)
        (map fst rds)
  <= len (filter snd rds) <= len (map fst rds).
Proof.
  induction 1 as [|[r d] rds Hrd _ IH].
  - unfold count, len. simpl. lia.
  - cbn [map fst snd filter] in *. rewrite count_cons.
    assert (E : len (r :: map fst rds) = 1 + len (map fst rds))
      by (unfold len; cbn [List.length]; lia).
    rewrite E.
    destruct (is_deprecated r) as [|[|]| | | | |] eqn:Er, d;
      try (specialize (Hrd eq_refl); discriminate);
      unfold len in *; cbn [List.length]; lia.
Qed.

(** X13. In a response of Endpoint A or B, [total_packages] is the number of
    packages returned, [outdated_count] the number of them reported
    outdated and [vulnerable_count] the number with a positive
    vulnerability count; [deprecated_count] is at least the number of
    packages reported deprecated, since it counts the true-valued
    deprecation markers as the registry client handed them over; none of
    the three exceeds [total_packages]. *)
Theorem summary_counters_count_flags
    (net : list request -> request -> http_outcome)
    (python_batch : PythonDependenciesRequest) (npm_batch : NpmDependenciesRequest)
    (log log' : list request) (resp : OverallHealthResponse) :
  analyze_python_dependencies net python_batch log = (Ok resp, log') \/
  analyze_npm_dependencies net npm_batch log = (Ok resp, log') ->
  total_packages resp = len (packages resp)
  /\ outdated_count resp =
     count (fun r => match is_outdated r with VBool true => true | _ => false end)
           (packages resp)
  /\ vulnerable_count resp =
     count (fun r => 0 <? vulnerability_count r) (packages resp)
  /\ count (fun r => match is_deprecated r with VBool true => true | _ => false end)
           (packages resp)
     <= deprecated_count resp
  /\ 0 <= outdated_count resp <= total_packages resp
  /\ 0 <= vulnerable_count resp <= total_packages resp
  /\ 0 <= deprecated_count resp <= total_packages resp.
Proof.
  intros H.
  assert (Hfacts :
            Forall (fun r => (exists b, is_outdated r = VBool b) /\
                             has_vulnerabilities r = (0 <? vulnerability_count r))
                   (packages resp) /\
            total_packages resp = len (packages resp) /\
            outdated_count resp = count (fun r => truthy (is_outdated r)) (packages resp) /\
            vulnerable_count resp = count has_vulnerabilities (packages resp) /\
            count (fun r => match is_deprecated r with VBool true => true | _ => false end)
                  (packages resp)
            <= deprecated_count resp <= len (packages resp)).
  { destruct H as [H|H].
    - apply analyze_python_facts in H as (parsed & Hall & Ht & Ho & Hv & Hd & _).
      repeat split; try assumption.
      + eapply Forall2_right; [|exact Hall]. intros a b Hab.
        destruct Hab as ((_ & _ & _ & Hhas & _) & _ & Hb & _). now split.
      + rewrite Hd. apply Z.eq_le_incl, count_ext.
        eapply Forall2_right; [|exact Hall]. now intros a b (_ & -> & _).
      + rewrite Hd. apply count_bounds.
    - apply analyze_npm_facts in H as (pkgs & rds & Hp & Hall & Ht & Ho & Hv & Hd & _).
      assert (Hflags : Forall (fun rd => is_deprecated (fst rd) = VBool true ->
                                         snd rd = true) rds).
      { eapply Forall2_right; [|exact Hall]. now intros a b (_ & _ & Hb & _). }
      apply deprecated_flags_bounds in Hflags. rewrite <- Hp, <- Hd in Hflags.
      repeat split; try assumption; try apply Hflags.
      rewrite Hp. apply Forall_map.
      eapply Forall2_right; [|exact Hall]. intros a b Hab.
      destruct Hab as ((_ & _ & _ & Hhas & _) & (_ & Hb & _) & _). now split. }
  destruct Hfacts as (Hall & Ht & Ho & Hv & Hd).
  assert (Ho' : outdated_count resp =
                count (fun r => match is_outdated r with VBool true => true | _ => false end)
                      (packages resp)).
  { rewrite Ho. apply count_ext. eapply Forall_impl; [|exact Hall].
    intros r [[b ->] _]. now destruct b. }
  assert (Hv' : vulnerable_count resp =
                count (fun r => 0 <? vulnerability_count r) (packages resp)).
  { rewrite Hv. apply count_ext. eapply Forall_impl; [|exact Hall]. now intros r [_ ->]. }
  split; [exact Ht|]. split; [exact Ho'|]. split; [exact Hv'|]. split; [apply Hd|].
  rewrite Ho', Hv', Ht.
  split; [apply count_bounds|]. split; [apply count_bounds|].
  pose proof (count_bounds
                (fun r => match is_deprecated r with VBool true => true | _ => false end)
                (packages resp)). lia.
Qed.

Lemma summary_counters_count_flags_witness :
  let net :=
    scripted [ok200 (VDict [(lit "dist-tags", VDict [(lit "latest", VStr (lit "1.3.0"))]);
                            (lit "deprecated", VBool true)]);
              ok200 (VDict [(lit "vulns", VList [VDict []])])] in
  exists resp log',
    analyze_npm_dependencies net
      (mkNpmDependenciesRequest (Some [(lit "left-pad", lit "^1.0.0")]) None) [] =
    (Ok resp, log') /\
    total_packages resp = 1 /\ outdated_count resp = 1 /\
    vulnerable_count resp = 1 /\ deprecated_count resp = 1 /\
    (total_packages resp = len (packages resp)
     /\ outdated_count resp =
        count (fun r => match is_outdated r with VBool true => true | _ => false end)
              (packages resp)
     /\ vulnerable_count resp =
        count (fun r => 0 <? vulnerability_count r) (packages resp)
     /\ count (fun r => match is_deprecated r with VBool true => true | _ => false end)
              (packages resp)
        <= deprecated_count resp
     /\ 0 <= outdated_count resp <= total_packages resp
     /\ 0 <= vulnerable_count resp <= total_packages resp
     /\ 0 <= deprecated_count resp <= total_packages resp).
Proof.
  intros net. eexists _, _. split; [vm_compute; reflexivity|].
  repeat (split; [reflexivity|]).
  eapply (summary_counters_count_flags net (mkPythonDependenciesRequest [])
            (mkNpmDependenciesRequest (Some [(lit "left-pad", lit "^1.0.0")]) None) []).
  right. vm_compute. reflexivity.
Defined.

Lemma calculate_health_score_bounds (is_outdated : bool) (n : Z) (is_deprecated : bool) :
  0 <= n -> 0 <= calculate_health_score is_outdated n is_deprecated <= 100.
Proof.
  intros Hn. unfold calculate_health_score.
  destruct (Z.ltb_spec 0 n), is_outdated, is_deprecated; lia.
Qed.

Lemma assessed_score_bounds (pkg : PackageDependency) (r : PackageHealthResponse)
    (deprecated : bool) :
  assessed pkg r deprecated -> 0 <= health_score r <= 100.
Proof.
  intros (_ & _ & Hcount & _ & -> & _). apply calculate_health_score_bounds.
  rewrite Hcount. unfold len. lia.
Qed.

Lemma health_of_score_bounds (pkg : PackageDependency) (r : PackageHealthResponse) :
  health_of pkg r -> 0 <= health_score r <= 100.
Proof. apply assessed_score_bounds. Qed.

Lemma total_bounds (scores : list Z) :
  Forall (fun s => 0 <= s <= 100) scores ->
  0 <= total scores <= 100 * len scores /\
  (total scores = 100 * len scores -> Forall (fun s => s = 100) scores).
Proof.
  induction 1 as [|s scores Hs _ [IH1 IH2]].
  - split; [unfold len; simpl; lia|constructor].
  - assert (E : len (s :: scores) = 1 + len scores)
      by (unfold len; cbn [List.length]; lia).
    cbn [total]. rewrite E. split; [lia|].
    intros Ht. constructor; [lia|]. apply IH2. lia.
Qed.

Lemma floor_average_range (scores : list Z) (q : Z) :
  Forall (fun s => 0 <= s <= 100) scores ->
  floor_average scores q ->
  0 <= q <= 100 /\ (q = 100 -> Forall (fun s => s = 100) scores).
Proof.
  intros Hall Hq. destruct (total_bounds scores Hall) as [Ht H100].
  destruct scores as [|s scores].
  - simpl in Hq. subst q. split; [lia|discriminate].
  - unfold floor_average in Hq.
    assert (0 < len (s :: scores)) by (unfold len; cbn [List.length]; lia).
    split; [nia|]. intros ->. apply H100. nia.
Qed.

(** X14. In a response of Endpoint A or B every [health_score] lies between
    0 and 100, and so does [overall_health_score], which is 100 only when
    every package scores 100. *)
Theorem response_scores_in_range
    (net : list request -> request -> http_outcome)
    (python_batch : PythonDependenciesRequest) (npm_batch : NpmDependenciesRequest)
    (log log' : list request) (resp : OverallHealthResponse) :
  analyze_python_dependencies net python_batch log = (Ok resp, log') \/
  analyze_npm_dependencies net npm_batch log = (Ok resp, log') ->
  Forall (fun r => 0 <= health_score r <= 100) (packages resp)
  /\ 0 <= overall_health_score resp <= 100
  /\ (overall_health_score resp = 100 ->
      Forall (fun r => health_score r = 100) (packages resp)).
Proof.
  intros H.
  assert (Hfacts : Forall (fun r => 0 <= health_score r <= 100) (packages resp) /\
                   floor_average (map health_score (packages resp))
                                 (overall_health_score resp)).
  { destruct H as [H|H].
    - apply analyze_python_facts in H as (pkgs & Hall & _ & _ & _ & _ & Hfloor).
      split; [|exact Hfloor].
      eapply Forall2_right; [|exact Hall]. intros a b Hab.
      destruct Hab as (Hh & _). exact (health_of_score_bounds _ _ Hh).
    - apply analyze_npm_facts in H as (pkgs & rds & Hp & Hall & _ & _ & _ & _ & Hfloor).
      split; [|exact Hfloor]. rewrite Hp. apply Forall_map.
      eapply Forall2_right; [|exact Hall]. intros a b Hab.
      destruct Hab as (Hh & _). exact (assessed_score_bounds _ _ _ Hh). }
  destruct Hfacts as (Hall & Hfloor). split; [exact Hall|].
  assert (Hm : Forall (fun s => 0 <= s <= 100) (map health_score (packages resp)))
    by (apply Forall_map; exact Hall).
  destruct (floor_average_range _ _ Hm Hfloor) as (Hrange & H100).
  split; [exact Hrange|]. intros E.
  exact (proj1 (Forall_map health_score (fun s => s = 100) (packages resp)) (H100 E)).
Qed.

Lemma response_scores_in_range_witness :
  exists resp,
    Forall (fun r => 0 <= health_score r <= 100) (packages resp)
    /\ 0 <= overall_health_score resp <= 100
    /\ (overall_health_score resp = 100 ->
        Forall (fun r => health_score r = 100) (packages resp)).
Proof.
  eexists.
  eapply (response_scores_in_range (scripted [])
            (mkPythonDependenciesRequest [])
            (mkNpmDependenciesRequest (Some [(lit "express", lit "^4.17.1")]) None)
            []).
  right. vm_compute. reflexivity.
Defined.

(** ** Endpoints *)

(** X15. A Python package is never reported deprecated, whatever the
    registry record contains: in a response of Endpoint A every package
    has [is_deprecated] false and [deprecated_count] is 0, and Endpoint C
    answers a python request with [is_deprecated] false. *)
Theorem python_is_never_deprecated
    (net : list request -> request -> http_outcome)
    (batch : PythonDependenciesRequest) (pkg : PackageDependency)
    (log log' : list request) (resp : OverallHealthResponse)
    (r : PackageHealthResponse) :
  (analyze_python_dependencies net batch log = (Ok resp, log') ->
   Forall (fun r => is_deprecated r = VBool false) (packages resp) /\
   deprecated_count resp = 0)
  /\ (check_single_package net pkg (lit "python") log = (Ok r, log') ->
      is_deprecated r = VBool false).
Proof.
  split.
  - intros H. apply analyze_python_facts in H as (parsed & Hall & _ & _ & _ & Hd & _).
    assert (Hdep : Forall (fun r => is_deprecated r = VBool false) (packages resp)).
    { eapply Forall2_right; [|exact Hall]. now intros a b (_ & Hb & _). }
    split; [exact Hdep|]. rewrite Hd. apply count_none.
    eapply Forall_impl; [|exact Hdep]. now intros x ->.
  - rewrite check_single_package_python. intros [= E _].
    now apply python_outcome_fact in E as ((_ & H & _) & _).
Qed.

Lemma python_is_never_deprecated_witness :
  exists r,
    check_single_package
      (scripted [ok200 (VDict [(lit "info", VDict [(lit "version", VStr (lit "1.0"))]);
                               (lit "deprecated", VBool true)])])
      (mkPackageDependency (lit "flask") None) (lit "python") [] =
    (Ok r, lookups pypi_url (lit "python") (mkPackageDependency (lit "flask") None)) /\
    is_deprecated r = VBool false.
Proof.
  eexists. split; [vm_compute; reflexivity|].
  eapply (proj2 (python_is_never_deprecated
                   (scripted [ok200 (VDict [(lit "info", VDict [(lit "version", VStr (lit "1.0"))]);
                                            (lit "deprecated", VBool true)])])
                   (mkPythonDependenciesRequest [])
                   (mkPackageDependency (lit "flask") None) [] _
                   (mkOverallHealthResponse 0 0 0 0 0 []) _)).
  vm_compute. reflexivity.
Defined.



(** ** Name to constraint maps of Endpoint B *)

Lemma existsb_app_single (k k' : str) (ks : list str) :
  k <> k' ->
  existsb (str_eqb k) (ks ++ [k']) = existsb (str_eqb k) ks.
Proof.
  intros Hne. rewrite existsb_app. cbn [existsb].
  apply str_eqb_neq in Hne. rewrite Hne. now rewrite !orb_false_r.
Qed.

Lemma keys_dict_update {V} (items d : list (str * V)) :
  NoDup (map fst items) ->
  map fst (dict_update d items) =
  map fst d ++
  filter (fun k => negb (existsb (str_eqb k) (map fst d))) (map fst items).
Proof.
  unfold dict_update. revert d.
  induction items as [|[k v] items IH]; intros d Hnd.
  - simpl. now rewrite app_nil_r.
  - inversion Hnd as [|? ? Hnotin Hnd']; subst.
    cbn [fold_left fst snd map filter]. rewrite (IH _ Hnd'), keys_dict_set.
    destruct (existsb (str_eqb k) (map fst d)) eqn:E; cbn [negb]; [reflexivity|].
    rewrite <- app_assoc. cbn [app]. do 2 f_equal.
    apply filter_ext_in. intros k' Hk'.
    rewrite existsb_app_single; [reflexivity|]. intros ->. contradiction.
Qed.

Lemma Forall2_names (pkgs : list PackageDependency)
    (rds : list (PackageHealthResponse * bool)) :
  Forall2 (fun pkg rd => npm_assessed pkg (fst rd) (snd rd)) pkgs rds ->
  map name (map fst rds) = map pkg_name pkgs.
Proof.
  induction 1 as [|pkg r pkgs rs ((Hname & _) & _) _ IH]; [reflexivity|].
  cbn [map]. now rewrite Hname, IH.
Qed.

(** X17. The merge of Endpoint B keeps the names of [dependencies] in their
    order and appends the names that only [devDependencies] has, in their
    order; the packages of the response follow that order. *)
Theorem npm_packages_follow_merge_order
    (net : list request -> request -> http_outcome)
    (deps : list (str * str)) (dev : option (list (str * str)))
    (log log' : list request) (resp : OverallHealthResponse) :
  NoDup (map fst deps) ->
  NoDup (map fst (or_empty dev)) ->
  let batch := mkNpmDependenciesRequest (Some deps) dev in
  let names :=
    map fst deps ++
    filter (fun k => negb (existsb (str_eqb k) (map fst deps)))
           (map fst (or_empty dev)) in
  (exists merged, all_deps batch = Ok merged /\ map fst merged = names)
  /\ (analyze_npm_dependencies net batch log = (Ok resp, log') ->
      map name (packages resp) = names).
Proof.
  intros Hdeps Hdev batch names.
  assert (Hkeys : map fst (dict_update (dict_update [] deps) (or_empty dev)) = names).
  { rewrite (keys_dict_update (or_empty dev)) by assumption.
    rewrite (keys_dict_update deps) by assumption. cbn [map app existsb negb].
    assert (Hall : forall ks : list str, filter (fun _ => true) ks = ks).
    { induction ks as [|k ks IH]; [reflexivity|]. cbn [filter]. now rewrite IH. }
    now rewrite Hall. }
  split; [eexists; split; [reflexivity|exact Hkeys]|].
  intros H. pose proof H as H'. apply analyze_npm_inv in H' as (merged & Hm & Hagg).
  injection Hm as <-.
  apply aggregate_npm_inv in Hagg as (rds & _ & Hp & Hall & _).
  rewrite Hp, (Forall2_names _ _ Hall), <- Hkeys. unfold npm_packages.
  rewrite map_map. reflexivity.
Qed.

Lemma npm_packages_follow_merge_order_witness :
  exists merged,
    all_deps (mkNpmDependenciesRequest
                (Some [(lit "express", lit "^4.17.1"); (lit "jest", lit "^26.0.0")])
                (Some [(lit "mocha", lit "~9.0.0"); (lit "jest", lit "^27.0.0")]))
    = Ok merged /\
    map fst merged =
      map fst [(lit "express", lit "^4.17.1"); (lit "jest", lit "^26.0.0")] ++
      filter (fun k => negb (existsb (str_eqb k)
                               (map fst [(lit "express", lit "^4.17.1");
                                         (lit "jest", lit "^26.0.0")])))
             (map fst (or_empty (Some [(lit "mocha", lit "~9.0.0");
                                       (lit "jest", lit "^27.0.0")]))).
Proof.
  apply (npm_packages_follow_merge_order (scripted [])
           [(lit "express", lit "^4.17.1"); (lit "jest", lit "^26.0.0")]
           (Some [(lit "mocha", lit "~9.0.0"); (lit "jest", lit "^27.0.0")])
           [] [] (mkOverallHealthResponse 0 0 0 0 0 [])).
  - repeat constructor; simpl; intuition discriminate.
  - repeat constructor; simpl; intuition discriminate.
Defined.





Lemma lstrip_by_idempotent (p : char -> bool) (s : str) :
  lstrip_by p (lstrip_by p s) = lstrip_by p s.
Proof.
  apply lstrip_by_fixed.
  destruct (lstrip_by_decompose p s) as (l & _ & _ & H). exact H.
Qed.

Lemma lstrip_by_nil_iff (p : char -> bool) (s : str) :
  lstrip_by p s = [] <-> forallb p s = true.
Proof.
  induction s as [|c s IH]; simpl; [tauto|].
  destruct (p c); simpl; [exact IH|]. split; discriminate.
Qed.

Lemma lstrip_by_length (p : char -> bool) (s : str) :
  (List.length (lstrip_by p s) <= List.length s)%nat.
Proof.
  induction s as [|c s IH]; simpl; [lia|]. destruct (p c); simpl; lia.
Qed.

(** X19. Cleaning a version constraint twice is the same as cleaning it
    once. The declared version is the empty string exactly when the
    constraint consists only of the characters ^ ~ > = <, and it is the
    constraint itself exactly when the constraint does not start with one
    of them. *)
Theorem clean_version_idempotent (version : str) :
  clean_version (clean_version version) = clean_version version
  /\ (clean_version version = [] <->
      forallb (fun c => mem c (lit "^~>=<")) version = true)
  /\ (clean_version version = version <->
      forall c rest, version = c :: rest -> mem c (lit "^~>=<") = false).
Proof.
  unfold clean_version, lstrip. split; [apply lstrip_by_idempotent|].
  split; [apply lstrip_by_nil_iff|]. split.
  - intros E c rest ->. revert E. cbn [lstrip_by].
    destruct (mem c (lit "^~>=<")) eqn:Hc; [|reflexivity].
    intros E. pose proof (lstrip_by_length (fun c => mem c (lit "^~>=<")) rest) as Hlen.
    rewrite E in Hlen. simpl in Hlen. lia.
  - apply lstrip_by_fixed.
Qed.

(** ** The patterns of the file-content parsers *)

Lemma take_while_decompose (p : char -> bool) (s : str) :
  s = take_while p s ++ lstrip_by p s.
Proof.
  induction s as [|c s IH]; [reflexivity|]. simpl.
  destruct (p c); [simpl; now rewrite <- IH|reflexivity].
Qed.

Lemma take_while_all (p : char -> bool) (s : str) :
  forallb p (take_while p s) = true.
Proof.
  induction s as [|c s IH]; [reflexivity|]. simpl.
  destruct (p c) eqn:E; [simpl; now rewrite E|reflexivity].
Qed.

Lemma firstn_take_while (p : char -> bool) (s : str) :
  firstn (List.length (take_while p s)) s = take_while p s.
Proof.
  rewrite (take_while_decompose p s) at 2.
  now rewrite firstn_app, firstn_all, Nat.sub_diag, app_nil_r.
Qed.

Lemma skipn_take_while (p : char -> bool) (s : str) :
  skipn (List.length (take_while p s)) s = lstrip_by p s.
Proof.
  rewrite (take_while_decompose p s) at 2.
  now rewrite skipn_app, skipn_all, Nat.sub_diag.
Qed.

Lemma take_while_app (p : char -> bool) (a b : str) :
  forallb p a = true ->
  (forall c t, b = c :: t -> p c = false) ->
  take_while p (a ++ b) = a /\ lstrip_by p (a ++ b) = b.
Proof.
  intros Ha Hb. induction a as [|x a IH]; simpl in *.
  - destruct b as [|c t]; [now split|]. simpl. now rewrite (Hb c t eq_refl).
  - apply andb_true_iff in Ha as [Hx Ha]. rewrite Hx.
    destruct (IH Ha) as [-> ->]. now split.
Qed.

(** A group whose longest run is long enough, and after which the rest of
    the pattern matches, takes that run: nothing is given back. *)
Lemma re_match_longest (g : group) (rest : list group) (s : str)
    (captures : list str) :
  (at_least g <= List.length (take_while (cls g) s))%nat ->
  re_match rest (lstrip_by (cls g) s) = Some captures ->
  re_match (g :: rest) s = Some (take_while (cls g) s :: captures).
Proof.
  intros Hmin Hrest. cbn [re_match].
  pose proof (firstn_take_while (cls g) s) as Hfirst.
  pose proof (skipn_take_while (cls g) s) as Hskip.
  apply Nat.leb_le in Hmin.
  destruct (List.length (take_while (cls g) s)) as [|n];
    rewrite Hmin, Hskip, Hrest, Hfirst; reflexivity.
Qed.

(** A group whose longest run is too short does not match. *)
Lemma re_match_too_short (g : group) (rest : list group) (s : str) :
  (List.length (take_while (cls g) s) < at_least g)%nat ->
  re_match (g :: rest) s = None.
Proof.
  cbn [re_match]. generalize (List.length (take_while (cls g) s)) as n.
  induction n as [|n IH]; intros Hn.
  - destruct (Nat.leb_spec (at_least g) 0) as [H|_]; [lia|reflexivity].
  - destruct (Nat.leb_spec (at_least g) (S n)) as [H|_]; [lia|].
    apply IH. lia.
Qed.

Section Patterns.

Variable isdecimal : char -> bool.

(** The pattern of line 62 matches exactly the lines that begin with a name
    character, and captures the three longest runs. *)
Lemma requirement_pattern_match (line : str) :
  re_match (requirement_pattern isdecimal) line =
  match take_while name_char line with
  | [] => None
  | name =>
      Some [name;
            take_while operator_char (lstrip_by name_char line);
            take_while (version_char isdecimal)
              (lstrip_by operator_char (lstrip_by name_char line))]
  end.
Proof.
  unfold requirement_pattern.
  destruct (take_while name_char line) as [|c name] eqn:E.
  - apply re_match_too_short. cbn [cls at_least]. rewrite E. simpl. lia.
  - rewrite <- E. apply re_match_longest; [cbn [cls at_least]; rewrite E; simpl; lia|].
    cbn [cls]. apply re_match_longest; [cbn [at_least]; lia|].
    cbn [cls]. apply re_match_longest; [cbn [at_least]; lia|]. reflexivity.
Qed.

(** The substitution of line 79 removes the longest leading run of
    characters that are not decimal digits. *)
Lemma sub_leading_non_digits_str (version : str) :
  sub_leading_non_digits isdecimal (VStr version) =
  Ok (lstrip_by (non_digit isdecimal) version).
Proof.
  unfold sub_leading_non_digits.
  rewrite (re_match_longest (mkGroup (non_digit isdecimal) 0) [] version [])
    by (cbn [at_least]; lia || reflexivity).
  cbn [cls]. now rewrite skipn_take_while.
Qed.

End Patterns.

(** ** [parse_requirements_txt] *)

Section Requirements.

Variable isdecimal : char -> bool.

Lemma requirement_line_cases (line : str) (packages : list PackageDependency) :
  requirement_line isdecimal line packages = packages \/
  exists dep,
    requirement_line isdecimal line packages = packages ++ [dep] /\
    valid_requirement isdecimal dep.
Proof.
  unfold requirement_line.
  destruct ((match strip line with [] => true | _ => false end)
            || startswith (lit "#") (strip line)); [now left|].
  rewrite requirement_pattern_match.
  destruct (take_while name_char (strip line)) as [|c name] eqn:E; [now left|].
  right. eexists. split; [reflexivity|].
  split; [discriminate|]. split; [rewrite <- E; apply take_while_all|].
  cbn [pkg_version].
  destruct (take_while (version_char isdecimal) _) as [|v vs] eqn:Ev; [exact I|].
  split; [discriminate|]. rewrite <- Ev. apply take_while_all.
Qed.

Lemma requirement_lines_valid (lines : list str) :
  forall packages,
    Forall (valid_requirement isdecimal) packages ->
    Forall (valid_requirement isdecimal)
      (fold_left (fun packages line => requirement_line isdecimal line packages)
                 lines packages) /\
    (List.length
       (fold_left (fun packages line => requirement_line isdecimal line packages)
                  lines packages)
     <= List.length packages + List.length lines)%nat.
Proof.
  induction lines as [|line lines IH]; intros packages Hall; cbn [fold_left].
  - split; [assumption|simpl; lia].
  - destruct (requirement_line_cases line packages) as [->|(dep & -> & Hdep)].
    + destruct (IH packages Hall) as [H1 H2]. split; [assumption|simpl; lia].
    + destruct (IH (packages ++ [dep])) as [H1 H2].
      * apply Forall_app. split; [assumption|now constructor].
      * split; [assumption|]. rewrite length_app in H2. simpl in *. lia.
Qed.

(** X20. Every dependency [parse_requirements_txt] returns has a non-empty
    name made of letters, digits, [_] and [-], and a version that is absent
    or a non-empty string of decimal digits and dots: a line that does not
    begin with a name character, such as ["==1.0"], yields nothing. There
    is at most one dependency per line of the trimmed content. *)
Theorem requirements_are_valid (content : str) (dep : PackageDependency) :
  (In dep (parse_requirements_txt isdecimal content) ->
   valid_requirement isdecimal dep)
  /\ (List.length (parse_requirements_txt isdecimal content)
      <= List.length (split_on 10%N (strip content)))%nat.
Proof.
  unfold parse_requirements_txt.
  destruct (requirement_lines_valid (split_on 10%N (strip content)) [])
    as [Hall Hlen]; [constructor|].
  split; [|exact Hlen]. intros Hin. rewrite Forall_forall in Hall. now apply Hall.
Qed.

End Requirements.

Lemma requirements_are_valid_witness :
  valid_requirement ascii_digit (mkPackageDependency (lit "flask") (Some (lit "2.0.1"))).
Proof.
  apply (requirements_are_valid ascii_digit
           (lit "==1.0" ++ 10%N :: lit "flask==2.0.1")
           (mkPackageDependency (lit "flask") (Some (lit "2.0.1")))).
  vm_compute. now left.
Defined.

(** The characters of a requirement line: name characters, [=], ASCII
    digits and the dot. None is whitespace, a newline or [#]. *)
Lemma line_char_plain (c : char) :
  name_char c = true \/ c = 61%N \/ ascii_digit c = true \/ c = 46%N ->
  isspace c = false /\ c <> 10%N /\ c <> 35%N.
Proof.
  unfold name_char, ascii_digit, isspace. intros H.
  repeat rewrite ?orb_true_iff, ?andb_true_iff, ?N.leb_le, ?N.eqb_eq in H.
  split; [|lia].
  apply not_true_is_false. intros H'.
  repeat rewrite ?orb_true_iff, ?andb_true_iff, ?N.leb_le, ?N.eqb_eq in H'. lia.
Qed.

Lemma ascii_version_char_facts (c : char) :
  ascii_digit c = true \/ c = 46%N -> operator_char c = false.
Proof.
  unfold ascii_digit, operator_char, mem. cbn [lit map list_ascii_of_string existsb].
  intros H. repeat rewrite ?orb_true_iff, ?andb_true_iff, ?N.leb_le, ?N.eqb_eq in H.
  apply not_true_is_false. intros H'.
  repeat rewrite ?orb_true_iff, ?andb_true_iff, ?N.eqb_eq in H'.
  simpl in H'. lia.
Qed.

Lemma version_char_ascii (c : char) :
  version_char ascii_digit c = true <-> ascii_digit c = true \/ c = 46%N.
Proof.
  unfold version_char. now rewrite orb_true_iff, N.eqb_eq.
Qed.

Lemma forallb_In (p : char -> bool) (s : str) (c : char) :
  forallb p s = true -> In c s -> p c = true.
Proof.
  intros H. rewrite forallb_forall in H. apply H.
Qed.

Lemma split_on_line (sep : char) (l rest : str) :
  ~ In sep l -> split_on sep (l ++ sep :: rest) = l :: split_on sep rest.
Proof.
  induction l as [|c l IH]; intros H; cbn [app split_on].
  - now rewrite N.eqb_refl.
  - destruct (N.eqb_spec c sep) as [->|_]; [exfalso; apply H; now left|].
    rewrite IH; [reflexivity|]. intros Hin. apply H. now right.
Qed.

Lemma split_on_single (sep : char) (l : str) :
  ~ In sep l -> split_on sep l = [l].
Proof.
  induction l as [|c l IH]; intros H; cbn [split_on]; [reflexivity|].
  destruct (N.eqb_spec c sep) as [->|_]; [exfalso; apply H; now left|].
  rewrite IH; [reflexivity|]. intros Hin. apply H. now right.
Qed.

Lemma split_on_join (lines : list str) :
  lines <> [] ->
  Forall (fun l => ~ In 10%N l) lines ->
  split_on 10%N (join_lines lines) = lines.
Proof.
  induction lines as [|l lines IH]; intros Hne Hall; [congruence|].
  inversion Hall as [|? ? Hl Hrest]; subst. cbn [join_lines].
  destruct lines as [|l' lines']; [now apply split_on_single|].
  rewrite split_on_line by assumption. f_equal. apply IH; [discriminate|assumption].
Qed.

Lemma join_lines_chars (P : char -> Prop) (lines : list str) :
  P 10%N -> Forall (Forall P) lines -> Forall P (join_lines lines).
Proof.
  intros Hnl. induction 1 as [|l lines Hl Hall IH]; [constructor|].
  cbn [join_lines]. destruct lines; [assumption|].
  apply Forall_app. split; [assumption|now constructor].
Qed.

Lemma join_lines_last (lines : list str) (t : str) (c : char) :
  Forall (fun l => l <> []) lines ->
  join_lines lines = t ++ [c] ->
  exists l t', In l lines /\ l = t' ++ [c].
Proof.
  revert t. induction lines as [|l lines IH]; intros t Hall E.
  - destruct t; discriminate.
  - inversion Hall as [|? ? Hl Hrest]; subst. cbn [join_lines] in E.
    destruct lines as [|l' lines'].
    + exists l, t. split; [now left|assumption].
    + assert (Hne : join_lines (l' :: lines') <> []).
      { inversion Hrest; subst. cbn [join_lines].
        destruct lines'; [assumption|]. destruct l'; [congruence|discriminate]. }
      destruct (exists_last Hne) as (t'' & c'' & E'').
      rewrite E'' in E.
      change (l ++ 10%N :: t'' ++ [c'']) with (l ++ (10%N :: t'') ++ [c'']) in E.
      rewrite app_assoc in E. apply app_inj_tail in E as [_ <-].
      destruct (IH t'' Hrest E'') as (l0 & t0 & Hin & E0).
      exists l0, t0. split; [now right|assumption].
Qed.

Lemma join_lines_strip (lines : list str) :
  Forall (fun l => l <> [] /\ Forall (fun c => isspace c = false) l) lines ->
  strip (join_lines lines) = join_lines lines.
Proof.
  intros Hall. apply strip_fixed.
  - intros c t E. destruct lines as [|l lines]; [discriminate|].
    inversion Hall as [|? ? [Hl Hplain] _]; subst.
    destruct l as [|c' l']; [congruence|].
    inversion Hplain; subst.
    cbn [join_lines] in E. destruct lines; injection E as <- _; assumption.
  - intros t c E.
    destruct (join_lines_last lines t c) as (l & t' & Hin & ->); [|assumption|].
    + eapply Forall_impl; [|exact Hall]. now intros l [H _].
    + rewrite Forall_forall in Hall. destruct (Hall _ Hin) as [_ Hplain].
      rewrite Forall_forall in Hplain. apply Hplain, in_elt.
Qed.

Lemma take_while_id (p : char -> bool) (s : str) :
  forallb p s = true -> take_while p s = s.
Proof.
  intros H. rewrite <- (app_nil_r s) at 1.
  now destruct (take_while_app p s [] H) as [-> _].
Qed.

Lemma lstrip_by_all (p : char -> bool) (s : str) :
  forallb p s = true -> lstrip_by p s = [].
Proof. apply lstrip_by_nil_iff. Qed.

Section RequirementsRoundTrip.

Variable isdecimal : char -> bool.
Hypothesis ascii_digits_are_decimal :
  forall c, ascii_digit c = true -> isdecimal c = true.

Lemma requirement_text_chars (dep : PackageDependency) :
  valid_requirement ascii_digit dep ->
  requirement_text dep <> [] /\
  Forall (fun c => name_char c = true \/ c = 61%N \/ ascii_digit c = true \/ c = 46%N)
         (requirement_text dep).
Proof.
  intros (Hne & Hname & Hver). unfold requirement_text. split.
  - destruct (pkg_name dep); [congruence|discriminate].
  - apply Forall_app. split.
    + apply Forall_forall. intros c Hc. left. exact (forallb_In _ _ _ Hname Hc).
    + destruct (pkg_version dep) as [v|]; [|constructor].
      destruct Hver as [_ Hv]. apply Forall_app. split.
      * repeat constructor; right; now left.
      * apply Forall_forall. intros c Hc. right. right.
        now apply version_char_ascii, (forallb_In _ _ _ Hv).
Qed.

Lemma version_chars_decimal (v : str) :
  forallb (version_char ascii_digit) v = true ->
  forallb (version_char isdecimal) v = true.
Proof.
  intros H. apply forallb_forall. intros c Hc.
  pose proof (forallb_In _ _ _ H Hc) as Hv. unfold version_char in *.
  apply orb_true_iff in Hv as [Hd|Hdot]; apply orb_true_iff; [left|now right].
  now apply ascii_digits_are_decimal.
Qed.

Lemma requirement_line_text (dep : PackageDependency)
    (packages : list PackageDependency) :
  valid_requirement ascii_digit dep ->
  requirement_line isdecimal (requirement_text dep) packages = packages ++ [dep].
Proof.
  intros Hvalid. pose proof Hvalid as (Hne & Hname & Hver).
  destruct (requirement_text_chars dep Hvalid) as [Htext Hchars].
  assert (Hplain : Forall (fun c => isspace c = false /\ c <> 10%N /\ c <> 35%N)
                          (requirement_text dep)).
  { eapply Forall_impl; [|exact Hchars]. intros c. apply line_char_plain. }
  assert (Hstrip : strip (requirement_text dep) = requirement_text dep).
  { apply strip_fixed.
    - intros c t E. rewrite E in Hplain. inversion Hplain; subst. tauto.
    - intros t c E. rewrite E in Hplain. apply Forall_app in Hplain as [_ H].
      inversion H; subst. tauto. }
  unfold requirement_line. rewrite Hstrip.
  destruct (requirement_text dep) as [|c0 t0] eqn:Et; [congruence|].
  assert (Hhash : startswith (lit "#") (c0 :: t0) = false).
  { inversion Hplain as [|? ? (_ & _ & H35) _]; subst.
    change (startswith (lit "#") (c0 :: t0)) with ((35 =? c0)%N && true).
    rewrite andb_true_r. apply N.eqb_neq. congruence. }
  rewrite Hhash. cbn [orb]. rewrite <- Et. clear Hhash.
  rewrite requirement_pattern_match. unfold requirement_text.
  destruct dep as [name [v|]]; cbn [pkg_name pkg_version] in *.
  - destruct Hver as [Hv Hvchars].
    destruct (take_while_app name_char name (lit "==" ++ v) Hname) as [-> ->].
    { now intros c t [= <- _]. }
    destruct (take_while_app operator_char (lit "==") v eq_refl) as [-> ->].
    { intros c t ->. apply ascii_version_char_facts, version_char_ascii.
      simpl in Hvchars. now apply andb_true_iff in Hvchars as [-> _]. }
    rewrite (take_while_id _ v (version_chars_decimal v Hvchars)).
    destruct name; [congruence|]. destruct v; [congruence|reflexivity].
  - rewrite app_nil_r.
    rewrite (take_while_id _ name Hname), (lstrip_by_all _ name Hname).
    destruct name; [congruence|reflexivity].
Qed.

Lemma requirement_lines_text (deps packages : list PackageDependency) :
  Forall (valid_requirement ascii_digit) deps ->
  fold_left (fun packages line => requirement_line isdecimal line packages)
            (map requirement_text deps) packages =
  packages ++ deps.
Proof.
  revert packages. induction deps as [|dep deps IH]; intros packages Hall.
  - simpl. now rewrite app_nil_r.
  - inversion Hall; subst. cbn [map fold_left].
    rewrite requirement_line_text by assumption.
    rewrite IH by assumption. now rewrite <- app_assoc.
Qed.

Lemma requirements_text_parse (deps : list PackageDependency) :
  Forall (valid_requirement ascii_digit) deps ->
  parse_requirements_txt isdecimal (join_lines (map requirement_text deps)) = deps.
Proof.
  intros Hall. unfold parse_requirements_txt.
  destruct deps as [|dep deps]; [reflexivity|].
  assert (Hlines : Forall (fun l => l <> [] /\
                                    Forall (fun c => isspace c = false /\ c <> 10%N) l)
                          (map requirement_text (dep :: deps))).
  { apply Forall_map. eapply Forall_impl; [|exact Hall]. intros d Hd.
    destruct (requirement_text_chars d Hd) as [Hne Hchars]. split; [assumption|].
    eapply Forall_impl; [|exact Hchars]. intros c Hc.
    destruct (line_char_plain c Hc) as (? & ? & _). now split. }
  rewrite join_lines_strip.
  - rewrite split_on_join.
    + now apply (requirement_lines_text (dep :: deps) []).
    + discriminate.
    + eapply Forall_impl; [|exact Hlines]. intros l [_ Hl] Hin.
      rewrite Forall_forall in Hl. destruct (Hl _ Hin) as [_ H]. congruence.
  - eapply Forall_impl; [|exact Hlines]. intros l [Hne Hl]. split; [assumption|].
    eapply Forall_impl; [|exact Hl]. now intros c [H _].
Qed.

Lemma name_has_no_operator (name op : str) :
  forallb name_char name = true -> In op operators -> contains op name = false.
Proof.
  intros Hname Hop. apply contains_false. intros (pre & post & E).
  unfold splits_at in E.
  assert (Hin : forall c t, op = c :: t -> name_char c = true).
  { intros c t ->. apply (forallb_In _ _ _ Hname). rewrite E.
    apply in_or_app. right. now left. }
  repeat (destruct Hop as [<-|Hop]; [now specialize (Hin _ _ eq_refl)|]).
  destruct Hop.
Qed.

Lemma name_is_trimmed (name : str) :
  forallb name_char name = true -> strip name = name.
Proof.
  intros Hname. apply strip_fixed.
  - intros c t ->. apply line_char_plain. left.
    apply (forallb_In _ _ _ Hname). now left.
  - intros t c ->. apply line_char_plain. left.
    apply (forallb_In _ _ _ Hname), in_elt.
Qed.

Lemma parse_requirement_entry (dep : PackageDependency) (rest : list str)
    (collected : list PackageDependency) :
  valid_requirement ascii_digit dep ->
  parse_packages (requirement_text dep :: rest) collected =
  parse_packages rest (collected ++ [dep]).
Proof.
  intros (Hne & Hname & Hver). unfold requirement_text.
  destruct dep as [name [v|]]; cbn [pkg_name pkg_version] in *.
  - destruct Hver as [Hv Hvchars]. apply parse_pinned_entry.
    + assumption.
    + now apply name_is_trimmed.
    + apply strip_fixed.
      * intros c t ->. apply line_char_plain. right. right.
        apply version_char_ascii, (forallb_In _ _ _ Hvchars). now left.
      * intros t c ->. apply line_char_plain. right. right.
        apply version_char_ascii, (forallb_In _ _ _ Hvchars), in_elt.
    + intros Hin. now pose proof (forallb_In _ _ _ Hname Hin).
    + destruct name as [|c name]; [congruence|].
      change (startswith (lit "#") (c :: name)) with ((35 =? c)%N && true).
      rewrite andb_true_r. apply N.eqb_neq. intros <-.
      simpl in Hname. discriminate.
  - rewrite app_nil_r. pose proof (name_is_trimmed name Hname) as Hstrip.
    rewrite not_skipped; rewrite Hstrip.
    + rewrite scan_operators_none; [reflexivity|].
      intros op Hop. now apply name_has_no_operator.
    + assumption.
    + destruct name as [|c name]; [congruence|].
      change (startswith (lit "#") (c :: name)) with ((35 =? c)%N && true).
      rewrite andb_true_r. apply N.eqb_neq. intros <-.
      simpl in Hname. discriminate.
Qed.

(** X21. Requirements written one per line, as [name==version] or as the
    name alone, are read back in order both by [parse_requirements_txt],
    from the text, and by the parser of Endpoint A, from the lines, for
    names of name characters and versions of ASCII digits and dots: on
    such lines the two parsers agree. *)
Theorem requirement_lines_round_trip (deps : list PackageDependency) :
  Forall (valid_requirement ascii_digit) deps ->
  parse_requirements_txt isdecimal (join_lines (map requirement_text deps)) = deps
  /\ parse_packages (map requirement_text deps) [] = Ok deps.
Proof.
  intros Hall. split; [now apply requirements_text_parse|].
  assert (H : forall collected,
             parse_packages (map requirement_text deps) collected =
             Ok (collected ++ deps)).
  { induction Hall as [|dep deps Hdep _ IH]; intros collected.
    - simpl. now rewrite app_nil_r.
    - cbn [map]. rewrite parse_requirement_entry by assumption.
      now rewrite IH, <- app_assoc. }
  apply (H []).
Qed.

End RequirementsRoundTrip.

(** ** [parse_package_json] *)

Lemma dict_set_map {V W} (g : V -> W) (k : str) (v : V) (d : list (str * V)) :
  dict_set k (g v) (map (fun kv => (fst kv, g (snd kv))) d) =
  map (fun kv => (fst kv, g (snd kv))) (dict_set k v d).
Proof.
  induction d as [|[k' v'] d IH]; [reflexivity|]. cbn [map dict_set fst snd].
  destruct (str_eqb k k'); [reflexivity|]. cbn [map fst snd]. now rewrite IH.
Qed.

Lemma dict_update_map {V W} (g : V -> W) (items d : list (str * V)) :
  dict_update (map (fun kv => (fst kv, g (snd kv))) d)
              (map (fun kv => (fst kv, g (snd kv))) items) =
  map (fun kv => (fst kv, g (snd kv))) (dict_update d items).
Proof.
  unfold dict_update. revert d.
  induction items as [|[k v] items IH]; intros d; [reflexivity|].
  cbn [map fold_left fst snd]. now rewrite dict_set_map, IH.
Qed.

Lemma dict_set_fresh {V} (k : str) (v : V) (d : list (str * V)) :
  ~ In k (map fst d) -> dict_set k v d = d ++ [(k, v)].
Proof.
  induction d as [|[k' v'] d IH]; intros H; [reflexivity|]. cbn [dict_set app].
  destruct (str_eqb k k') eqn:E.
  - apply str_eqb_eq in E. subst. exfalso. apply H. now left.
  - rewrite IH; [reflexivity|]. intros Hin. apply H. now right.
Qed.

Lemma dict_update_fresh {V} (items d : list (str * V)) :
  NoDup (map fst items) ->
  (forall k, In k (map fst items) -> ~ In k (map fst d)) ->
  dict_update d items = d ++ items.
Proof.
  unfold dict_update. revert d.
  induction items as [|[k v] items IH]; intros d Hnd Hfresh.
  - simpl. now rewrite app_nil_r.
  - inversion Hnd as [|? ? Hnotin Hnd']; subst. cbn [fold_left fst snd].
    rewrite dict_set_fresh by (apply Hfresh; now left).
    rewrite IH; [now rewrite <- app_assoc|assumption|].
    intros k' Hk'. rewrite map_app, in_app_iff. cbn [map fst In].
    intros [H|[<-|[]]]; [|contradiction].
    revert H. apply Hfresh. now right.
Qed.

Lemma lstrip_by_absorb (p q : char -> bool) (s : str) :
  (forall c, q c = true -> p c = true) ->
  lstrip_by p (lstrip_by q s) = lstrip_by p s.
Proof.
  intros H. induction s as [|c s IH]; [reflexivity|]. cbn [lstrip_by].
  destruct (q c) eqn:Hq; [|reflexivity]. now rewrite (H c Hq).
Qed.

Section PackageJson.

Variable isdecimal : char -> bool.
Variable loads : str -> option value.

Lemma package_json_items_strings (items : list (str * str))
    (packages : list PackageDependency) :
  package_json_items isdecimal
    (map (fun kv => (fst kv, VStr (snd kv))) items) packages =
  Ok (packages ++
      map (fun kv => mkPackageDependency (fst kv)
                       (Some (lstrip_by (non_digit isdecimal) (snd kv)))) items).
Proof.
  revert packages. induction items as [|[k v] items IH]; intros packages.
  - simpl. now rewrite app_nil_r.
  - cbn [map package_json_items fst snd]. rewrite sub_leading_non_digits_str.
    cbn [bind Monad_result]. now rewrite IH, <- app_assoc.
Qed.

Lemma package_json_items_not_string (items : list (str * value))
    (packages : list PackageDependency) :
  (exists k v, In (k, v) items /\ forall s, v <> VStr s) ->
  package_json_items isdecimal items packages = Raise TypeError.
Proof.
  revert packages. induction items as [|[k v] items IH]; intros packages (k0 & v0 & Hin & Hv).
  - destruct Hin.
  - cbn [package_json_items]. destruct v as [| | | |s| |];
      try reflexivity.
    rewrite sub_leading_non_digits_str. cbn [bind Monad_result].
    apply IH. exists k0, v0. split; [|assumption].
    destruct Hin as [[= <- <-]|Hin]; [now destruct (Hv s)|assumption].
Qed.

(** X22. [parse_package_json] returns the empty list for a text that does
    not decode. A text that decodes to something other than an object makes
    it raise [AttributeError]. An object whose [dependencies] is not an
    object, or whose [dependencies] is an object or absent and whose
    [devDependencies] is not an object, makes it raise [TypeError]; so
    does an object for which the merge of the two maps, an absent one
    counting as empty, holds a value that is not a string, in particular a
    value of [dependencies] that is not a string when there is no
    [devDependencies]. These exceptions are not caught. *)
Theorem parse_package_json_errors (content : str) (data : value)
    (fields deps dev : list (str * value)) (k : str) (v : value) :
  (loads content = None -> parse_package_json isdecimal loads content = Ok [])
  /\ (loads content = Some data -> (forall f, data <> VDict f) ->
      parse_package_json isdecimal loads content = Raise AttributeError)
  /\ (loads content = Some (VDict fields) ->
      dict_get (lit "dependencies") fields = Some v -> (forall d, v <> VDict d) ->
      parse_package_json isdecimal loads content = Raise TypeError)
  /\ (loads content = Some (VDict fields) ->
      field (lit "dependencies") (VDict fields) (VDict []) = VDict deps ->
      dict_get (lit "devDependencies") fields = Some v -> (forall d, v <> VDict d) ->
      parse_package_json isdecimal loads content = Raise TypeError)
  /\ (loads content = Some (VDict fields) ->
      field (lit "dependencies") (VDict fields) (VDict []) = VDict deps ->
      field (lit "devDependencies") (VDict fields) (VDict []) = VDict dev ->
      In (k, v) (dict_update (dict_update [] deps) dev) -> (forall s, v <> VStr s) ->
      parse_package_json isdecimal loads content = Raise TypeError)
  /\ (loads content = Some (VDict fields) ->
      dict_get (lit "dependencies") fields = Some (VDict deps) ->
      dict_get (lit "devDependencies") fields = None ->
      NoDup (map fst deps) ->
      In (k, v) deps -> (forall s, v <> VStr s) ->
      parse_package_json isdecimal loads content = Raise TypeError).
Proof.
  assert (Hget : forall key default,
             get (VDict fields) key default = Ok (field key (VDict fields) default)).
  { intros key default. unfold get, field. now destruct (dict_get key fields). }
  unfold parse_package_json. split; [|split; [|split; [|split; [|split]]]].
  - now intros ->.
  - intros -> Hd. destruct data; try reflexivity. now destruct (Hd d).
  - intros -> Hv Hd. unfold get. rewrite Hv. cbn [bind Monad_result].
    destruct v; try reflexivity. now destruct (Hd d).
  - intros -> Hdeps Hv Hd. rewrite Hget, Hdeps. cbn [bind Monad_result mapping_items].
    unfold get. rewrite Hv. cbn [bind Monad_result].
    destruct v; try reflexivity. now destruct (Hd d).
  - intros -> Hdeps Hdev Hin Hv. rewrite !Hget, Hdeps, Hdev.
    cbn [bind Monad_result mapping_items].
    apply package_json_items_not_string. now exists k, v.
  - intros -> Hdeps Hdev Hnd Hin Hv. unfold get. rewrite Hdeps, Hdev.
    cbn [bind Monad_result mapping_items].
    apply package_json_items_not_string. exists k, v. split; [|assumption].
    change (dict_update (dict_update [] deps) []) with (dict_update [] deps).
    rewrite dict_update_fresh; [exact Hin|assumption|]. now intros ? _ [].
Qed.

(** X23. For a text that decodes to an object whose [dependencies] and
    [devDependencies], when present, are objects with string values,
    [parse_package_json] returns what Endpoint B parses from the same two
    maps, in the same order, with each version further stripped of its
    leading characters that are not decimal digits; the two agree on every
    constraint that, after its ^ ~ > = < prefix, is empty or starts with a
    decimal digit. *)
Theorem parse_package_json_agrees_with_endpoint_b
    (content : str) (data : value) (deps dev merged : list (str * str)) :
  (forall c, mem c (lit "^~>=<") = true -> isdecimal c = false) ->
  loads content = Some data ->
  get data (lit "dependencies") (VDict []) = Ok (strings_dict deps) ->
  get data (lit "devDependencies") (VDict []) = Ok (strings_dict dev) ->
  all_deps (mkNpmDependenciesRequest (Some deps) (Some dev)) = Ok merged ->
  parse_package_json isdecimal loads content =
    Ok (map (from_first_digit isdecimal) (npm_packages merged))
  /\ (Forall (fun kv => forall c rest, clean_version (snd kv) = c :: rest ->
                                       isdecimal c = true) merged ->
      parse_package_json isdecimal loads content = Ok (npm_packages merged)).
Proof.
  intros Hprefix Hloads Hdeps Hdev Hmerged.
  assert (Hm : merged = dict_update (dict_update [] deps) dev).
  { unfold all_deps in Hmerged. cbn [bind Monad_result unpack_mapping dependencies
                                     devDependencies] in Hmerged.
    destruct dev; cbn [or_empty] in Hmerged; now injection Hmerged as <-. }
  assert (Hrun : parse_package_json isdecimal loads content =
                 Ok (map (from_first_digit isdecimal) (npm_packages merged))).
  { unfold parse_package_json. rewrite Hloads, Hdeps. cbn [bind Monad_result].
    unfold strings_dict at 1. cbn [mapping_items]. rewrite Hdev.
    unfold strings_dict. cbn [bind Monad_result mapping_items].
    change (@nil (str * value)) with (map (fun kv : str * str => (fst kv, VStr (snd kv))) [])
      at 1.
    rewrite !dict_update_map, <- Hm, package_json_items_strings. cbn [app].
    f_equal. unfold npm_packages. rewrite map_map. apply map_ext. intros [k v].
    unfold from_first_digit, clean_version, lstrip, non_digit.
    cbn [pkg_name pkg_version option_map fst snd]. do 2 f_equal.
    symmetry. apply lstrip_by_absorb. intros c Hc. now rewrite (Hprefix c Hc). }
  split; [exact Hrun|]. intros Hall. rewrite Hrun. f_equal.
  unfold npm_packages. rewrite map_map. apply map_ext_in. intros [k v] Hin.
  unfold from_first_digit. cbn [pkg_name pkg_version option_map fst snd].
  do 2 f_equal. apply lstrip_by_fixed. intros c rest E.
  rewrite Forall_forall in Hall. specialize (Hall _ Hin c rest E).
  cbn [snd] in Hall. now rewrite Hall.
Qed.

End PackageJson.

Lemma parse_package_json_errors_witness :
  parse_package_json ascii_digit (fun _ => None) (lit "{not json") = Ok []
  /\ parse_package_json ascii_digit (fun _ => Some (VList [])) (lit "[]") =
     Raise AttributeError
  /\ parse_package_json ascii_digit
       (fun _ => Some (VDict [(lit "dependencies", VDict [(lit "express", VInt 4)])]))
       (lit "{}") = Raise TypeError
  /\ parse_package_json ascii_digit
       (fun _ => Some (VDict [(lit "dependencies",
                               VDict [(lit "jest", VStr (lit "^26.0.0"))]);
                              (lit "devDependencies", VDict [(lit "jest", VNone)])]))
       (lit "{}") = Raise TypeError
  /\ parse_package_json ascii_digit
       (fun _ => Some (VDict [(lit "devDependencies", VList [])]))
       (lit "{}") = Raise TypeError.
Proof.
  split; [|split; [|split; [|split]]].
  - apply (parse_package_json_errors ascii_digit (fun _ => None) (lit "{not json")
             VNone [] [] [] [] VNone). reflexivity.
  - apply (parse_package_json_errors ascii_digit (fun _ => Some (VList [])) (lit "[]")
             (VList []) [] [] [] [] VNone); [reflexivity|discriminate].
  - apply (parse_package_json_errors ascii_digit
             (fun _ => Some (VDict [(lit "dependencies", VDict [(lit "express", VInt 4)])]))
             (lit "{}") VNone
             [(lit "dependencies", VDict [(lit "express", VInt 4)])]
             [(lit "express", VInt 4)] [] (lit "express") (VInt 4)).
    + reflexivity.
    + reflexivity.
    + reflexivity.
    + repeat constructor. intros [].
    + now left.
    + discriminate.
  - destruct (parse_package_json_errors ascii_digit
                (fun _ => Some (VDict [(lit "dependencies",
                                        VDict [(lit "jest", VStr (lit "^26.0.0"))]);
                                       (lit "devDependencies", VDict [(lit "jest", VNone)])]))
                (lit "{}") VNone
                [(lit "dependencies", VDict [(lit "jest", VStr (lit "^26.0.0"))]);
                 (lit "devDependencies", VDict [(lit "jest", VNone)])]
                [(lit "jest", VStr (lit "^26.0.0"))] [(lit "jest", VNone)]
                (lit "jest") VNone) as (_ & _ & _ & _ & H & _).
    apply H.
    + reflexivity.
    + reflexivity.
    + reflexivity.
    + now left.
    + discriminate.
  - destruct (parse_package_json_errors ascii_digit
                (fun _ => Some (VDict [(lit "devDependencies", VList [])]))
                (lit "{}") VNone [(lit "devDependencies", VList [])] [] []
                [] (VList [])) as (_ & _ & _ & H & _).
    apply H.
    + reflexivity.
    + reflexivity.
    + reflexivity.
    + discriminate.
Defined.

Lemma parse_package_json_agrees_with_endpoint_b_witness :
  let data :=
    VDict [(lit "dependencies", strings_dict [(lit "express", lit "^4.17.1")]);
           (lit "devDependencies", strings_dict [(lit "jest", lit "latest")])] in
  parse_package_json ascii_digit (fun _ => Some data) (lit "{}") =
  Ok (map (from_first_digit ascii_digit)
          (npm_packages [(lit "express", lit "^4.17.1"); (lit "jest", lit "latest")])).
Proof.
  intros data.
  apply (parse_package_json_agrees_with_endpoint_b ascii_digit (fun _ => Some data)
           (lit "{}") data [(lit "express", lit "^4.17.1")] [(lit "jest", lit "latest")]
           [(lit "express", lit "^4.17.1"); (lit "jest", lit "latest")]).
  - intros c Hc. unfold mem in Hc. cbn [lit map list_ascii_of_string existsb] in Hc.
    repeat rewrite ?orb_true_iff, ?N.eqb_eq in Hc.
    unfold ascii_digit. apply not_true_is_false. intros H.
    rewrite andb_true_iff, !N.leb_le in H. simpl in Hc. lia.
  - reflexivity.
  - reflexivity.
  - reflexivity.
  - reflexivity.
Defined.

Lemma requirement_lines_round_trip_witness :
  parse_requirements_txt ascii_digit
    (join_lines (map requirement_text
                   [mkPackageDependency (lit "flask") (Some (lit "2.0.1"));
                    mkPackageDependency (lit "numpy") None])) =
  [mkPackageDependency (lit "flask") (Some (lit "2.0.1"));
   mkPackageDependency (lit "numpy") None]
  /\ parse_packages
       (map requirement_text
          [mkPackageDependency (lit "flask") (Some (lit "2.0.1"));
           mkPackageDependency (lit "numpy") None]) [] =
     Ok [mkPackageDependency (lit "flask") (Some (lit "2.0.1"));
         mkPackageDependency (lit "numpy") None].
Proof.
  apply (requirement_lines_round_trip ascii_digit (fun c H => H)).
  repeat constructor; discriminate.
Defined.
